(** * WP3 / T3.3 — GBIF occurrence pipeline: filter, join and metrics stages

    A shallow embedding of the data-processing logic of

    - [src/core/01_download_gbif.py]              (taxon-key derivation),
    - [src/core/02_filter_gbif_dataset.py]        (chunked quality filter),
    - [src/subprojects/natura2k/03_spatial_join_gbif_natura.py],
    - [src/subprojects/natura2k/04_basic_metrics_gbif_natura.py],
    - [src/subprojects/natura2k/05_advanced_metrics_gbif_natura.py].

    Data frames are lists of row records, a pandas Series is a list, a
    [Counter] is a [gmap] from keys to counts.  Floating-point columns that
    are only compared against constants (latitude, longitude, coordinate
    uncertainty) are rationals; year and key columns are integers, as the
    data model has them. *)

From Stdlib Require Import ZArith QArith Qminmax.
From stdpp Require Import gmap strings list fin_maps sorting.

#[local] Set Warnings "-clear-no-such-hyp".

Close Scope Q_scope.
Open Scope string_scope.
Open Scope list_scope.
Open Scope nat_scope.

(** ** Cells and series shared by all stages *)

(** A cell of a column as [pd.read_csv] delivers it: missing ([NaN]), a
    number, or a text that [pd.to_numeric] cannot parse. *)
Inductive cell (A : Type) : Type :=
  | NA
  | Num (a : A)
  | Text (s : string).
Arguments NA {A}.
Arguments Num {A} a.
Arguments Text {A} s.

(** [Series.notna()] on one cell. *)
Definition notna {A} (c : cell A) : bool :=
  match c with NA => false | _ => true end.

(** [pd.to_numeric(..., errors="coerce")] on one cell. *)
Definition to_numeric {A} (c : cell A) : cell A :=
  match c with Text _ => NA | c => c end.

(** [Series.fillna(d)] on one cell. *)
Definition fillna {A} (d : A) (c : cell A) : cell A :=
  match c with NA => Num d | c => c end.

Definition Qlt_bool (x y : Q) : bool := negb (Qle_bool y x).

(** Element-wise comparison of a numeric cell with a scalar; a comparison
    with [NaN] (or with a text) is [False]. *)
Definition cmp_cell {A} (rel : A → A → bool) (c : cell A) (b : A) : bool :=
  match c with Num a => rel a b | _ => false end.

(** [mask &= s]: element-wise conjunction of two boolean series that carry
    the same index. *)
Definition series_and (mask s : list bool) : list bool := zip_with andb mask s.

(** [df[mask]]: the rows whose mask entry is [True]. *)
Fixpoint select {A} (df : list A) (mask : list bool) : list A :=
  match df, mask with
  | r :: df', b :: mask' => if b then r :: select df' mask' else select df' mask'
  | _, _ => []
  end.

(** [Counter.update(iterable)]: one increment per element. *)
Definition counter_incr `{Countable K} (c : gmap K nat) (k : K) : gmap K nat :=
  <[k := S (default 0 (c !! k))]> c.

Definition counter_update `{Countable K} (c : gmap K nat) (xs : list K) : gmap K nat :=
  foldl counter_incr c xs.

(** [sum(counter.values())]. *)
Definition sum_values `{Countable K} (c : gmap K nat) : nat :=
  map_fold (λ _ v acc, v + acc) 0 c.

(** [Series.dropna()] of an optional column. *)
Definition dropna_col {A B} (f : A → option B) (df : list A) : list B := omap f df.

(** The numeric value of a cell, if it has one. *)
Definition cell_value {A} (c : cell A) : option A :=
  match c with Num a => Some a | _ => None end.

(** [Series.unique()]: the distinct values in order of first appearance. *)
Definition unique `{EqDecision A} (l : list A) : list A :=
  reverse (remove_dups (reverse l)).

(** [Series.nunique()] of a column whose nulls were dropped. *)
Definition nunique `{EqDecision A} (l : list A) : nat := length (unique l).

(** [Series.min()] and [Series.max()] of the non-null values; [None] is the
    [NaN] pandas returns for an empty series. *)
Definition series_min (l : list Z) : option Z :=
  match l with [] => None | x :: l' => Some (foldr Z.min x l') end.

Definition series_max (l : list Z) : option Z :=
  match l with [] => None | x :: l' => Some (foldr Z.max x l') end.

(** Ways a script stops before its last statement. *)
Inductive halt : Type :=
  | SystemExit (code : Z)
  | KeyError (col : string)
  | NameError (name : string).

(** A script that writes artifacts of type [W] as it goes: the files
    written so far are threaded through, and a [halt] stops the run while
    keeping what was already written. *)
Definition script (W A : Type) : Type := list W → list W * (halt + A).

#[global] Instance script_ret {W} : MRet (script W) := λ A a w, (w, inr a).

#[global] Instance script_bind {W} : MBind (script W) := λ A B k m w,
  match m w with
  | (w', inl h) => (w', inl h)
  | (w', inr a) => k a w'
  end.

Definition raise {W A} (h : halt) : script W A := λ w, (w, inl h).

Definition write {W} (a : W) : script W () := λ w, (w ++ [a], inr ()).

(** The files a script leaves behind and the exit status of its process:
    0 when it runs to its end or raises [SystemExit(0)], the code of a
    [SystemExit], and 1 for an uncaught exception. *)
Definition run_script {W A} (m : script W A) : list W * Z :=
  match m [] with
  | (w, inr _) => (w, 0%Z)
  | (w, inl (SystemExit c)) => (w, c)
  | (w, inl _) => (w, 1%Z)
  end.

(** ** Stage 2: quality filter ([02_filter_gbif_dataset.py]) *)

Module Filter.

Record row : Type := {
  taxonKey : option Z;
  scientificName : option string;
  decimalLatitude : cell Q;
  decimalLongitude : cell Q;
  countryCode : option string;
  basisOfRecord : option string;
  coordinateUncertaintyInMeters : cell Q;
  year : cell Z;
  month : option Z;
  eventDate : option string
}.

Definition ALLOWED_BASIS : list string :=
  ["HUMAN_OBSERVATION"; "MACHINE_OBSERVATION"; "PRESERVED_SPECIMEN"].

(** The optional bounds; [None] is Python's [None]. *)
Record config : Type := {
  LAT_MIN : option Q;
  LAT_MAX : option Q;
  LON_MIN : option Q;
  LON_MAX : option Q;
  YEAR_MIN : option Z;
  YEAR_MAX : option Z
}.

(** The configuration the script ships with: no optional bound. *)
Definition default_config : config :=
  {| LAT_MIN := None; LAT_MAX := None; LON_MIN := None; LON_MAX := None;
     YEAR_MIN := None; YEAR_MAX := None |}.

(** Step 1: [chunk.dropna(subset=[scientificName, taxonKey, decimalLatitude,
    decimalLongitude])]. *)
Definition critical_present (r : row) : bool :=
  bool_decide (is_Some (scientificName r)) && bool_decide (is_Some (taxonKey r))
  && notna (decimalLatitude r) && notna (decimalLongitude r).

Definition dropna_critical (chunk : list row) : list row :=
  List.filter critical_present chunk.

(** Step 2: the four [pd.to_numeric(..., errors="coerce")] assignments. *)
Definition coerce_row (r : row) : row :=
  {| taxonKey := taxonKey r;
     scientificName := scientificName r;
     decimalLatitude := to_numeric (decimalLatitude r);
     decimalLongitude := to_numeric (decimalLongitude r);
     countryCode := countryCode r;
     basisOfRecord := basisOfRecord r;
     coordinateUncertaintyInMeters := to_numeric (coordinateUncertaintyInMeters r);
     year := to_numeric (year r);
     month := month r;
     eventDate := eventDate r |}.

Definition coerce_numeric (chunk : list row) : list row := map coerce_row chunk.

(** Step 3: [if YEAR_MIN is not None or YEAR_MAX is not None:
    chunk = chunk.dropna(subset=["year"])]. *)
Definition year_filter_active (cfg : config) : bool :=
  bool_decide (is_Some (YEAR_MIN cfg)) || bool_decide (is_Some (YEAR_MAX cfg)).

Definition dropna_year (cfg : config) (chunk : list row) : list row :=
  if year_filter_active cfg then List.filter (λ r, notna (year r)) chunk else chunk.

(** [chunk["basisOfRecord"].isin(ALLOWED_BASIS)] on one cell. *)
Definition isin_allowed (b : option string) : bool :=
  match b with
  | Some s => bool_decide (s ∈ ALLOWED_BASIS)
  | None => false
  end.

(** [if BOUND is not None: mask &= chunk[col] <rel> BOUND]. *)
Definition and_bound {A} (bound : option A) (rel : A → A → bool)
    (col : row → cell A) (chunk : list row) (mask : list bool) : list bool :=
  match bound with
  | Some b => series_and mask (map (λ r, cmp_cell rel (col r) b) chunk)
  | None => mask
  end.

Definition Qge_bool (x y : Q) : bool := Qle_bool y x.

Definition any_spatial (cfg : config) : bool :=
  bool_decide (is_Some (LAT_MIN cfg)) || bool_decide (is_Some (LAT_MAX cfg))
  || bool_decide (is_Some (LON_MIN cfg)) || bool_decide (is_Some (LON_MAX cfg)).

(** Step 4: the mask, built by successive [&=] exactly in the order of the
    script. *)
Definition build_mask (cfg : config) (chunk : list row) : list bool :=
  let mask := map (λ _, true) chunk in
  let mask := series_and mask (map (λ r, isin_allowed (basisOfRecord r)) chunk) in
  let mask := series_and mask
    (map (λ r, cmp_cell Qlt_bool (fillna 0%Q (coordinateUncertaintyInMeters r)) 1000%Q)
         chunk) in
  let mask :=
    if any_spatial cfg then
      let mask := and_bound (LAT_MIN cfg) Qge_bool decimalLatitude chunk mask in
      let mask := and_bound (LAT_MAX cfg) Qle_bool decimalLatitude chunk mask in
      let mask := and_bound (LON_MIN cfg) Qge_bool decimalLongitude chunk mask in
      and_bound (LON_MAX cfg) Qle_bool decimalLongitude chunk mask
    else mask in
  let mask := and_bound (YEAR_MIN cfg) Z.geb year chunk mask in
  and_bound (YEAR_MAX cfg) Z.leb year chunk mask.

(** Steps 1-5 on one chunk: the value of [filtered_chunk]. *)
Definition filter_chunk (cfg : config) (chunk : list row) : list row :=
  let chunk := dropna_critical chunk in
  let chunk := coerce_numeric chunk in
  let chunk := dropna_year cfg chunk in
  select chunk (build_mask cfg chunk).

(** *** The loop state and one iteration *)

Record state : Type := {
  species_counter : gmap (option string) nat;
  taxon_counter : gmap (option Z) nat;
  country_counter : gmap string nat;
  basis_counter : gmap string nat;
  year_counter : gmap Z nat;
  total_records : nat;
  filtered_records : nat;
  filtered_data : list (list row)
}.

Definition init_state : state :=
  {| species_counter := ∅; taxon_counter := ∅; country_counter := ∅;
     basis_counter := ∅; year_counter := ∅;
     total_records := 0; filtered_records := 0; filtered_data := [] |}.

(** The body of the [for chunk in pd.read_csv(...)] loop. *)
Definition process_chunk (cfg : config) (st : state) (chunk : list row) : state :=
  let filtered_chunk := filter_chunk cfg chunk in
  let nonempty := negb (bool_decide (filtered_chunk = [])) in
  let upd {K} `{Countable K} (c : gmap K nat) (xs : list K) :=
    if nonempty then counter_update c xs else c in
  {| species_counter := upd (species_counter st) (map scientificName filtered_chunk);
     taxon_counter := upd (taxon_counter st) (map taxonKey filtered_chunk);
     country_counter := upd (country_counter st) (dropna_col countryCode filtered_chunk);
     basis_counter := upd (basis_counter st) (dropna_col basisOfRecord filtered_chunk);
     year_counter := upd (year_counter st) (dropna_col (λ r, cell_value (year r)) filtered_chunk);
     total_records := total_records st + length chunk;
     filtered_records := filtered_records st + length filtered_chunk;
     filtered_data := filtered_data st ++ [filtered_chunk] |}.

Definition run_loop (cfg : config) (chunks : list (list row)) : state :=
  foldl (process_chunk cfg) init_state chunks.

(** *** After the loop: the filtered table and the report *)

(** The statistics the report records, in the order they are written.
    The coordinate ranges and the ranked listings that follow the basis
    distribution are formatted from the same table and counters and are
    not itemised here. *)
Inductive report_entry : Type :=
  | RFilterConfiguration (cfg : config)
  | RTotalRecordsRaw (n : nat)
  | RRecordsAfterFiltering (n : nat)
  | RUniqueSpecies (n : nat)
  | RUniqueTaxonKeys (n : nat)
  | RRetentionRatio (pct : Q)
  | RYearRange (range : option (Z * Z))
  | RGeographicCoverage (n_countries : nat)
  | RBasisTotal (total_basis : nat).

Inductive output : Type :=
  | FILTERED_FILE (filtered_df : list row)
  | Print (msg : string)
  | Report (e : report_entry).

(** [ratio = (filtered_records / total_records * 100) if total_records > 0
    else 0]. *)
Definition retention_ratio (st : state) : Q :=
  if bool_decide (0 < total_records st) then
    (inject_Z (Z.of_nat (filtered_records st))
       / inject_Z (Z.of_nat (total_records st)) * 100)%Q
  else 0%Q.

Definition year_range (filtered_df : list row) : option (Z * Z) :=
  let years := dropna_col (λ r, cell_value (year r)) filtered_df in
  match series_min years, series_max years with
  | Some lo, Some hi => Some (lo, hi)
  | _, _ => None
  end.

(** The whole script on a stream of chunks of a table that has every
    column the script keeps ([main_with_columns] below covers the others).
    [filtered_df] is bound only in the [if filtered_data:] branch; the
    report section reads it unconditionally. *)
Definition main (cfg : config) (chunks : list (list row)) : script output () :=
  let st := run_loop cfg chunks in
  filtered_df ←
    (if bool_decide (filtered_data st = []) then
       write (Print "No data after filtering.");; mret None
     else
       let filtered_df := concat (filtered_data st) in
       write (FILTERED_FILE filtered_df);; mret (Some filtered_df));
  write (Report (RFilterConfiguration cfg));;
  write (Report (RTotalRecordsRaw (total_records st)));;
  write (Report (RRecordsAfterFiltering (filtered_records st)));;
  write (Report (RUniqueSpecies (size (species_counter st))));;
  write (Report (RUniqueTaxonKeys (size (taxon_counter st))));;
  write (Report (RRetentionRatio (retention_ratio st)));;
  df ← match filtered_df with
       | Some df => mret df
       | None => raise (NameError "filtered_df")
       end;
  write (Report (RYearRange (year_range df)));;
  write (Report (RGeographicCoverage (size (country_counter st))));;
  write (Report (RBasisTotal (sum_values (basis_counter st))));;
  write (Print "Report saved to: REPORT_FILE");;
  write (Print "Filtered dataset saved to: FILTERED_FILE").

(** *** The script on a table that may lack columns *)

Definition COLUMNS_KEEP : list string :=
  ["taxonKey"; "scientificName"; "decimalLatitude"; "decimalLongitude";
   "countryCode"; "basisOfRecord"; "coordinateUncertaintyInMeters"; "year";
   "month"; "eventDate"].

(** The columns every iteration of the loop reads, in the order in which
    it first reads them: the [dropna] subset, the two further converted
    columns and the basis mask. *)
Definition columns_read : list string :=
  ["scientificName"; "taxonKey"; "decimalLatitude"; "decimalLongitude";
   "coordinateUncertaintyInMeters"; "year"; "basisOfRecord"].

(** [chunk[col]], or [col] in a [dropna] subset, for a column that
    [pd.read_csv] did not deliver: [KeyError]. *)
Definition require (columns : list string) (col : string) : script output () :=
  if bool_decide (col ∈ columns) then mret () else raise (KeyError col).

(** One iteration on a chunk of a table with the given columns.  The
    country column is read only under [if not filtered_chunk.empty];
    [month] and [eventDate] are never read.  The value a row holds for an
    absent column is not looked at. *)
Definition read_chunk (columns : list string) (cfg : config) (st : state)
    (chunk : list row) : script output state :=
  require columns "scientificName";; require columns "taxonKey";;
  require columns "decimalLatitude";; require columns "decimalLongitude";;
  require columns "coordinateUncertaintyInMeters";; require columns "year";;
  require columns "basisOfRecord";;
  (if bool_decide (filter_chunk cfg chunk = []) then mret ()
   else require columns "countryCode");;
  mret (process_chunk cfg st chunk).

Fixpoint read_chunks (columns : list string) (cfg : config) (st : state)
    (chunks : list (list row)) : script output state :=
  match chunks with
  | [] => mret st
  | chunk :: rest =>
      st' ← read_chunk columns cfg st chunk;
      read_chunks columns cfg st' rest
  end.

(** The whole script on the chunks of a table with the given columns. *)
Definition main_with_columns (columns : list string) (cfg : config)
    (chunks : list (list row)) : script output () :=
  st ← read_chunks columns cfg init_state chunks;
  filtered_df ←
    (if bool_decide (filtered_data st = []) then
       write (Print "No data after filtering.");; mret None
     else
       let filtered_df := concat (filtered_data st) in
       write (FILTERED_FILE filtered_df);; mret (Some filtered_df));
  write (Report (RFilterConfiguration cfg));;
  write (Report (RTotalRecordsRaw (total_records st)));;
  write (Report (RRecordsAfterFiltering (filtered_records st)));;
  write (Report (RUniqueSpecies (size (species_counter st))));;
  write (Report (RUniqueTaxonKeys (size (taxon_counter st))));;
  write (Report (RRetentionRatio (retention_ratio st)));;
  df ← match filtered_df with
       | Some df => mret df
       | None => raise (NameError "filtered_df")
       end;
  (if bool_decide ("year" ∈ columns) then
     write (Report (RYearRange (year_range df)))
   else mret ());;
  write (Report (RGeographicCoverage (size (country_counter st))));;
  write (Report (RBasisTotal (sum_values (basis_counter st))));;
  write (Print "Report saved to: REPORT_FILE");;
  write (Print "Filtered dataset saved to: FILTERED_FILE").

(** *** The filter as the specification words it *)

(** Coordinate uncertainty, a null counting as 0, strictly below 1000 m. *)
Definition uncertainty_below_threshold (r : row) : bool :=
  match to_numeric (coordinateUncertaintyInMeters r) with
  | Num u => Qlt_bool u 1000%Q
  | _ => Qlt_bool 0%Q 1000%Q
  end.

(** The mandatory predicates, each on the row alone. *)
Definition mandatory_ok (r : row) : bool :=
  critical_present r && isin_allowed (basisOfRecord r) && uncertainty_below_threshold r.

(** A bound that is not configured imposes nothing; a configured one must
    hold of the (numeric) value. *)
Definition bound_ok {A} (rel : A → A → bool) (bound : option A) (c : cell A) : bool :=
  match bound with
  | None => true
  | Some b => cmp_cell rel (to_numeric c) b
  end.

Definition optional_ok (cfg : config) (r : row) : bool :=
  bound_ok Qge_bool (LAT_MIN cfg) (decimalLatitude r)
  && bound_ok Qle_bool (LAT_MAX cfg) (decimalLatitude r)
  && bound_ok Qge_bool (LON_MIN cfg) (decimalLongitude r)
  && bound_ok Qle_bool (LON_MAX cfg) (decimalLongitude r)
  && bound_ok Z.geb (YEAR_MIN cfg) (year r)
  && bound_ok Z.leb (YEAR_MAX cfg) (year r).

Definition passes_all (cfg : config) (r : row) : bool :=
  mandatory_ok r && optional_ok cfg r.

(** The entry the script's mask holds for a row of the coerced chunk. *)
Definition mask_entry (cfg : config) (r : row) : bool :=
  isin_allowed (basisOfRecord r)
  && cmp_cell Qlt_bool (fillna 0%Q (coordinateUncertaintyInMeters r)) 1000%Q
  && optional_ok cfg r.

(** [new] is at least as tight as [old]: a lower bound may only be raised,
    an upper bound only lowered, and a configured bound stays configured. *)
Definition tighter_lower {A} (le : A → A → Prop) (new old : option A) : Prop :=
  match old, new with
  | None, _ => True
  | Some o, Some n => le o n
  | Some _, None => False
  end.

Definition tighter_upper {A} (le : A → A → Prop) (new old : option A) : Prop :=
  match old, new with
  | None, _ => True
  | Some o, Some n => le n o
  | Some _, None => False
  end.

Definition tighter (new old : config) : Prop :=
  tighter_lower Qle (LAT_MIN new) (LAT_MIN old)
  ∧ tighter_upper Qle (LAT_MAX new) (LAT_MAX old)
  ∧ tighter_lower Qle (LON_MIN new) (LON_MIN old)
  ∧ tighter_upper Qle (LON_MAX new) (LON_MAX old)
  ∧ tighter_lower Z.le (YEAR_MIN new) (YEAR_MIN old)
  ∧ tighter_upper Z.le (YEAR_MAX new) (YEAR_MAX old).

(** *** The counter invariant of the loop *)

(** What holds of the state between two iterations: the counters and the
    record count describe exactly the rows collected so far. *)
Definition consistent (st : state) : Prop :=
  let filtered_df := concat (filtered_data st) in
  sum_values (basis_counter st) = filtered_records st
  ∧ filtered_records st = length filtered_df
  ∧ dom (species_counter st) ⊆ list_to_set (map scientificName filtered_df)
  ∧ dom (taxon_counter st) ⊆ list_to_set (map taxonKey filtered_df)
  ∧ dom (country_counter st) ⊆ list_to_set (dropna_col countryCode filtered_df)
  ∧ dom (basis_counter st) ⊆ list_to_set (dropna_col basisOfRecord filtered_df)
  ∧ dom (year_counter st)
      ⊆ list_to_set (dropna_col (λ r, cell_value (year r)) filtered_df).

(** *** Rows and configurations used in examples *)

Definition with_basis (r : row) (b : option string) : row :=
  {| taxonKey := taxonKey r; scientificName := scientificName r;
     decimalLatitude := decimalLatitude r; decimalLongitude := decimalLongitude r;
     countryCode := countryCode r; basisOfRecord := b;
     coordinateUncertaintyInMeters := coordinateUncertaintyInMeters r;
     year := year r; month := month r; eventDate := eventDate r |}.

Definition with_uncertainty (r : row) (u : cell Q) : row :=
  {| taxonKey := taxonKey r; scientificName := scientificName r;
     decimalLatitude := decimalLatitude r; decimalLongitude := decimalLongitude r;
     countryCode := countryCode r; basisOfRecord := basisOfRecord r;
     coordinateUncertaintyInMeters := u;
     year := year r; month := month r; eventDate := eventDate r |}.

(** Row A: null uncertainty, basis [HUMAN_OBSERVATION]. *)
Definition row_A (r : row) : row :=
  with_uncertainty (with_basis r (Some "HUMAN_OBSERVATION")) NA.

(** Row B: uncertainty 1500. *)
Definition row_B (r : row) : row := with_uncertainty r (Num 1500%Q).

(** Row C: basis [FOSSIL_SPECIMEN]. *)
Definition row_C (r : row) : row := with_basis r (Some "FOSSIL_SPECIMEN").

Definition sample_row (lat : Q) (y : Z) : row :=
  {| taxonKey := Some 2480528%Z; scientificName := Some "Aquila chrysaetos";
     decimalLatitude := Num lat; decimalLongitude := Num 22%Q;
     countryCode := Some "GR"; basisOfRecord := Some "HUMAN_OBSERVATION";
     coordinateUncertaintyInMeters := Num 250%Q;
     year := Num y; month := None; eventDate := None |}.

Definition sample_chunk : list row :=
  [sample_row 35%Q 1999%Z; sample_row 37%Q 2005%Z; sample_row 41%Q 2012%Z].

Definition loose_config : config :=
  {| LAT_MIN := Some 34%Q; LAT_MAX := Some 42%Q; LON_MIN := None; LON_MAX := None;
     YEAR_MIN := None; YEAR_MAX := Some 2020%Z |}.

Definition tight_config : config :=
  {| LAT_MIN := Some 36%Q; LAT_MAX := Some 42%Q; LON_MIN := Some 19%Q; LON_MAX := None;
     YEAR_MIN := Some 2000%Z; YEAR_MAX := Some 2010%Z |}.

(** A record whose latitude field holds text that is not a number. *)
Definition text_latitude_row : row :=
  {| taxonKey := Some 2480528%Z; scientificName := Some "Aquila chrysaetos";
     decimalLatitude := Text "abc"; decimalLongitude := Num 22%Q;
     countryCode := Some "GR"; basisOfRecord := Some "HUMAN_OBSERVATION";
     coordinateUncertaintyInMeters := NA;
     year := Num 2005%Z; month := None; eventDate := None |}.

End Filter.

(** ** Stage 1: taxon keys of the download predicate ([01_download_gbif.py]) *)

Module Acquisition.

(** A cell of a key column of the species list as pandas holds it: missing,
    a finite number (an element of an [int64] or [float64] column, or a
    Python number in a column of dtype [object]), a non-finite float, or a
    string (which makes the column of dtype [object]).  Columns of
    booleans are left out. *)
Inductive key_cell : Type :=
  | KNaN
  | KNum (q : Q)
  | KInf
  | KStr (s : string).

(** A row of a species list that has both key columns. *)
Record species : Type := {
  usageKey : key_cell;
  acceptedUsageKey : key_cell
}.

(** [a.fillna(b)] with a series as the fill value, on one row. *)
Definition fillna_from (a b : key_cell) : key_cell :=
  match a with KNaN => b | _ => a end.

(** [species_df["key_to_use"] =
      species_df["acceptedUsageKey"].fillna(species_df["usageKey"])]. *)
Definition key_to_use (r : species) : key_cell :=
  fillna_from (acceptedUsageKey r) (usageKey r).

Definition is_str (c : key_cell) : bool :=
  match c with KStr _ => true | _ => false end.

(** The dtype of a column: [object] as soon as it holds a string. *)
Definition is_object (col : list key_cell) : bool := existsb is_str col.

(** [int(x)] for a Python float: truncation towards zero. *)
Definition truncate (q : Q) : Z := Z.quot (Qnum q) (Z.pos (Qden q)).

Definition in_int64 (z : Z) : bool :=
  bool_decide (- 2 ^ 63 ≤ z)%Z && bool_decide (z < 2 ^ 63)%Z.

Section Parsers.

(** The three library behaviours the derivation relies on: whether
    [pd.to_numeric] makes a number of a string, what Python's [int()]
    makes of a string ([None]: [ValueError]), and what the cast of a
    numeric column to [int64] does with a finite value outside the [int64]
    range (the value it stores, or [None] if it raises). *)
Variable str_is_numeric : string → bool.
Variable int_of_str : string → option Z.
Variable cast_out_of_range : Q → option Z.

(** [pd.to_numeric(c, errors="coerce").notnull()] on one cell. *)
Definition is_numeric (c : key_cell) : bool :=
  match c with
  | KNaN => false
  | KNum _ | KInf => true
  | KStr s => str_is_numeric s
  end.

(** [species_df[pd.to_numeric(species_df["key_to_use"],
      errors="coerce").notnull()]]: the rows are selected on the converted
    values, the column itself is left as it was. *)
Definition numeric_keys (species_df : list species) : list species :=
  List.filter (λ r, is_numeric (key_to_use r)) species_df.

(** [.astype(int)] on one cell of the unconverted column; [None] stands for
    the exception raised.  In a column of dtype [object] every element
    goes through [int()] and must then fit [int64] ([ValueError] for a
    string that is not an integer literal, [OverflowError] out of range or
    for an infinity); in a numeric column non-finite values are refused
    and the others are cast.  A missing cell is refused in both. *)
Definition astype_int_cell (object : bool) (c : key_cell) : option Z :=
  match c with
  | KNaN | KInf => None
  | KNum q =>
      if in_int64 (truncate q) then Some (truncate q)
      else if object then None else cast_out_of_range q
  | KStr s =>
      match int_of_str s with
      | Some z => if in_int64 z then Some z else None
      | None => None
      end
  end.

Definition astype_int (object : bool) (col : list key_cell) : option (list Z) :=
  mapM (astype_int_cell object) col.


(** [usage_keys = species_df["key_to_use"].astype(int).unique().tolist()]
    on the selected rows; the column keeps the dtype it had before the
    selection. *)
Definition usage_keys (species_df : list species) : option (list Z) :=
  let object := is_object (map key_to_use species_df) in
  unique <$> astype_int object (map key_to_use (numeric_keys species_df)).

(** *** The run of the download script against the outside world *)

(** What the environment and the remote service answer during one run:
    the three credentials, the species list, the answer to the download
    request, the job statuses returned by the successive status requests,
    and the chunks in which the archive is streamed. *)
Record world : Type := {
  GBIF_USER : option string;
  GBIF_PASSWORD : option string;
  GBIF_EMAIL : option string;
  species_list : list species;
  status_code : Z;
  statuses : list (option string);
  iter_content : list (list Byte.byte)
}.

(** [not x] for an environment variable: unset or empty. *)
Definition not_set (x : option string) : bool :=
  match x with
  | None => true
  | Some s => bool_decide (s = "")
  end.

(** The [while True] loop over the statuses observed so far; [sleeps]
    counts the [time.sleep(20)] calls made.  When the observed statuses
    run out without a terminal one the loop is still waiting. *)
Inductive poll_result : Type :=
  | Succeeded (sleeps : nat)
  | JobFailed (sleeps : nat)
  | StillWaiting (sleeps : nat).

Fixpoint poll (states : list (option string)) (sleeps : nat) : poll_result :=
  match states with
  | [] => StillWaiting sleeps
  | state :: rest =>
      if bool_decide (state = Some "SUCCEEDED") then Succeeded sleeps
      else if bool_decide (state = Some "FAILED") then JobFailed sleeps
      else poll rest (S sleeps)
  end.

(** A status that keeps the loop going: any but the two terminal ones,
    also a response without status. *)
Definition pending (state : option string) : Prop :=
  state ≠ Some "SUCCEEDED" ∧ state ≠ Some "FAILED".

(** [for chunk in r.iter_content(...): if chunk: f.write(chunk)]. *)
Definition write_chunks (chunks : list (list Byte.byte)) : list Byte.byte :=
  concat (List.filter (λ chunk, negb (bool_decide (chunk = []))) chunks).

(** How a run ends: [sys.exit] (status 1 with a message, status 0 without
    an argument), the uncaught exception of a key that [astype(int)]
    refuses, a loop still polling, or the archive saved to [OUTPUT_FILE]
    after [sleeps] waits of 20 seconds. *)
Inductive outcome : Type :=
  | Exit (status : Z)
  | ValueError
  | Polling (sleeps : nat)
  | Saved (sleeps : nat) (OUTPUT_FILE : list Byte.byte).

(** The script from top to bottom.  The job key returned by the service
    only names the URLs that are requested next. *)
Definition main (w : world) : outcome :=
  if not_set (GBIF_USER w) || not_set (GBIF_PASSWORD w) || not_set (GBIF_EMAIL w)
  then Exit 1
  else
    match usage_keys (species_list w) with
    | None => ValueError
    | Some [] => Exit 1
    | Some _ =>
        if bool_decide (status_code w = 420%Z) then Exit 1
        else if negb (bool_decide (status_code w = 201%Z)) then Exit 0
        else
          match poll (statuses w) 0 with
          | Succeeded n => Saved n (write_chunks (iter_content w))
          | JobFailed _ => Exit 1
          | StillWaiting n => Polling n
          end
    end.

End Parsers.

(** The species list of the scenario: a row without accepted key and a row
    with one. *)
Definition scenario_species : list species :=
  [ {| usageKey := KNum 10; acceptedUsageKey := KNaN |};
    {| usageKey := KNum 20; acceptedUsageKey := KNum 99 |} ].

(** Stand-ins for the library behaviours in the examples: a string counts
    as a number, and converts, when it consists of decimal digits only; a
    cast out of range stores the least [int64]. *)
Fixpoint digits_value (s : string) (acc : Z) : option Z :=
  match s with
  | EmptyString => Some acc
  | String c s' =>
      match Ascii.is_nat c with
      | Some d => digits_value s' (10 * acc + Z.of_nat d)%Z
      | None => None
      end
  end.

Definition digits_int_of_str (s : string) : option Z :=
  if bool_decide (s = "") then None else digits_value s 0.

Definition digits_is_numeric (s : string) : bool :=
  bool_decide (is_Some (digits_int_of_str s)).

Definition cast_to_min (q : Q) : option Z := Some (- 2 ^ 63)%Z.

(** A run in which the job is ready at the third status request. *)
Definition sample_world : world :=
  {| GBIF_USER := Some "user"; GBIF_PASSWORD := Some "secret";
     GBIF_EMAIL := Some "user@example.org";
     species_list := scenario_species;
     status_code := 201%Z;
     statuses := [Some "PREPARING"; Some "RUNNING"; Some "SUCCEEDED"; Some "FAILED"];
     iter_content := [[Byte.x50; Byte.x4b]; []; [Byte.x03; Byte.x04]] |}.

(** A run in which the job never reaches a terminal status. *)
Definition waiting_world : world :=
  {| GBIF_USER := Some "user"; GBIF_PASSWORD := Some "secret";
     GBIF_EMAIL := Some "user@example.org";
     species_list := scenario_species;
     status_code := 201%Z;
     statuses := [Some "PREPARING"; None; Some "RUNNING"; Some "CANCELLED"];
     iter_content := [] |}.

End Acquisition.

(** ** Stage 3: spatial join ([03_spatial_join_gbif_natura.py]) *)

Module Join.

Section Geometry.

(** Polygon geometries and the strict containment test of the geometry
    library ([within]: interior only) are parameters of the join. *)
Variable polygon : Type.
Variable within : Q * Q → polygon → bool.

(** A row of the sites layer: its attribute columns (a null attribute is
    an absent key) and its geometry. *)
Record site : Type := {
  attrs : gmap string string;
  geometry : polygon
}.

Record layer : Type := {
  columns : list string;
  sites : list site
}.

Definition SITE_CODE_COL := "SITECODE".
Definition SITE_NAME_COL := "SITENAME".
Definition COUNTRY_COL := "COUNTRY".
Definition TYPE_COL := "SITETYPE".

Definition missing_natura_cols (gdf_natura : layer) : list string :=
  List.filter (λ col, negb (bool_decide (col ∈ columns gdf_natura)))
    [SITE_CODE_COL; SITE_NAME_COL; COUNTRY_COL; TYPE_COL].

(** [gdf_natura[keep_cols].copy()] when all four columns exist, the whole
    layer otherwise. *)
Definition gdf_natura_join (gdf_natura : layer) : layer :=
  match missing_natura_cols gdf_natura with
  | [] =>
      let keep_cols := [SITE_CODE_COL; SITE_NAME_COL; COUNTRY_COL; TYPE_COL] in
      {| columns := keep_cols;
         sites := map (λ s, {| attrs := filter (λ kv, kv.1 ∈ keep_cols) (attrs s);
                               geometry := geometry s |})
                      (sites gdf_natura) |}
  | _ => gdf_natura
  end.

(** [gpd.points_from_xy(df[COL_LON], df[COL_LAT])]: longitude first; a row
    with a missing coordinate has no usable point. *)
Definition points_from_xy (x y : cell Q) : option (Q * Q) :=
  match x, y with
  | Num a, Num b => Some (a, b)
  | _, _ => None
  end.

Definition point_of (r : Filter.row) : option (Q * Q) :=
  points_from_xy (Filter.decimalLongitude r) (Filter.decimalLatitude r).

(** A row of the joined table: the index and columns of the left row, then
    [index_right] and the attribute columns of the matched site, all null
    when nothing matched. *)
Record joined : Type := {
  index : nat;
  occurrence : Filter.row;
  index_right : option nat;
  site_attrs : gmap string string
}.

Definition contains (p : option (Q * Q)) (s : site) : bool :=
  match p with
  | Some xy => within xy (geometry s)
  | None => false
  end.

(** The sites (with their positions) whose polygon contains the point. *)
Definition matches (right : layer) (p : option (Q * Q)) : list (nat * site) :=
  List.filter (λ js, contains p js.2) (imap pair (sites right)).

(** The output rows of one left row under [how="left"]. *)
Definition join_row (right : layer) (i : nat) (r : Filter.row) : list joined :=
  match matches right (point_of r) with
  | [] => [ {| index := i; occurrence := r; index_right := None; site_attrs := ∅ |} ]
  | ms => map (λ js, {| index := i; occurrence := r;
                        index_right := Some js.1; site_attrs := attrs js.2 |}) ms
  end.

(** [gpd.sjoin(left, right, how="left", predicate="within")]. *)
Definition sjoin_left (left : list Filter.row) (right : layer) : list joined :=
  concat (imap (join_row right) left).

(** [gdf_joined] of the script. *)
Definition gdf_joined (df_points : list Filter.row) (gdf_natura : layer) : list joined :=
  sjoin_left df_points (gdf_natura_join gdf_natura).

End Geometry.

Arguments attrs {polygon} _.
Arguments geometry {polygon} _.
Arguments columns {polygon} _.
Arguments sites {polygon} _.
Arguments missing_natura_cols {polygon} _.
Arguments gdf_natura_join {polygon} _.
Arguments contains {polygon} _ _ _.
Arguments matches {polygon} _ _ _.
Arguments join_row {polygon} _ _ _ _.
Arguments sjoin_left {polygon} _ _ _.
Arguments gdf_joined {polygon} _ _ _.

(** A concrete geometry for examples: axis-parallel rectangles
    [(xmin, ymin, xmax, ymax)], containment being strict on every side. *)
Definition rect : Type := Q * Q * Q * Q.

Definition within_rect (p : Q * Q) (b : rect) : bool :=
  let '(xmin, ymin, xmax, ymax) := b in
  Qlt_bool xmin p.1 && Qlt_bool p.1 xmax && Qlt_bool ymin p.2 && Qlt_bool p.2 ymax.

Definition sample_site (code : string) (b : rect) : site rect :=
  {| attrs := {[ "SITECODE" := code; "SITENAME" := "Site " +:+ code;
                 "COUNTRY" := "GR"; "SITETYPE" := "B" ]};
     geometry := b |}.

(** Two overlapping sites and a third one apart. *)
Definition sample_layer : layer rect :=
  {| columns := ["SITECODE"; "SITENAME"; "COUNTRY"; "SITETYPE"];
     sites := [ sample_site "GR001" (20, 34, 24, 38)%Q;
                sample_site "GR002" (21, 36, 26, 40)%Q;
                sample_site "GR003" (27, 35, 28, 36)%Q ] |}.

(** A point inside the first two sites, a point in no site. *)
Definition sample_points : list Filter.row :=
  [Filter.sample_row 37%Q 2005%Z; Filter.sample_row 50%Q 1999%Z].

(** *** The match report and the two input checks of the join script *)

Section MatchReport.
Context {polygon : Type}.

(** [n_matched = gdf_joined[SITE_CODE_COL].notna().sum()] and
    [match_ratio = n_matched / len(gdf_joined) * 100 if len(gdf_joined) > 0
    else 0.0]; [None] when the joined table has no site-code column. *)
Definition n_matched (joined_rows : list joined) : nat :=
  length (List.filter (λ o, bool_decide (is_Some (site_attrs o !! SITE_CODE_COL)))
            joined_rows).

Definition match_ratio (joined_rows : list joined) : Q :=
  if bool_decide (0 < length joined_rows) then
    (inject_Z (Z.of_nat (n_matched joined_rows))
       / inject_Z (Z.of_nat (length joined_rows)) * 100)%Q
  else 0%Q.

Definition match_report (right : layer polygon) (joined_rows : list joined)
    : option (nat * Q) :=
  if bool_decide (SITE_CODE_COL ∈ columns right)
  then Some (n_matched joined_rows, match_ratio joined_rows)
  else None.

End MatchReport.

End Join.

(** ** Stages 4 and 5: metrics over the enriched table *)

Module Metrics.

(** A row of the joined table as the metrics scripts read it back. *)
Record row : Type := {
  taxonKey : option Z;
  scientificName : option string;
  year : option Z;
  SITECODE : option string;
  SITENAME : option string;
  MS : option string;
  SITETYPE : option string
}.

(** A data frame: the column names it carries and its rows.  The value a
    row holds for a column that is not in [columns] is never read. *)
Record frame : Type := {
  columns : list string;
  rows : list row
}.

Definition SITE_CODE_COL := "SITECODE".
Definition SITE_NAME_COL := "SITENAME".
Definition MS_COL := "MS".
Definition SITETYPE_COL := "SITETYPE".
Definition SPECIES_COL := "scientificName".
Definition YEAR_COL := "year".
Definition TAXON_KEY_COL := "taxonKey".

(** [col in df.columns]. *)
Definition has_col (df : frame) (col : string) : bool :=
  bool_decide (col ∈ columns df).

(** A column named in an aggregation must exist: pandas raises [KeyError]
    otherwise. *)
Definition require {W} (df : frame) (col : string) : script W () :=
  if has_col df col then mret () else raise (KeyError col).

(** [df[df[SITE_CODE_COL].notna()].copy()], or [df.iloc[0:0].copy()] when
    the column is absent. *)
Definition df_in_site (df : frame) : frame :=
  if has_col df SITE_CODE_COL then
    {| columns := columns df;
       rows := List.filter (λ r, bool_decide (is_Some (SITECODE r))) (rows df) |}
  else
    {| columns := columns df; rows := [] |}.

(** [df.groupby(col, dropna=True)]: one group per distinct non-null key,
    in ascending key order, each with its rows in table order. *)
Definition groupby `{EqDecision K} (sort : list K → list K)
    (key : row → option K) (df : list row) : list (K * list row) :=
  map (λ k, (k, List.filter (λ r, bool_decide (key r = Some k)) df))
      (sort (unique (omap key df))).

Definition sort_keys : list Z → list Z := merge_sort Z.le.
Definition sort_codes : list string → list string := merge_sort String.le.

(** The aggregation functions, all of which skip nulls except ["size"]. *)
Definition agg_first {A} (col : row → option A) (g : list row) : option A :=
  head (omap col g).

Definition agg_size (g : list row) : nat := length g.

Definition agg_nunique `{EqDecision A} (col : row → option A) (g : list row) : nat :=
  nunique (omap col g).

(** The three temporal columns [year_min], [year_max], [n_years]. *)
Record year_stats : Type := {
  year_min : option Z;
  year_max : option Z;
  n_years : nat
}.

Definition agg_years (g : list row) : year_stats :=
  {| year_min := series_min (omap year g);
     year_max := series_max (omap year g);
     n_years := agg_nunique year g |}.

(** Arithmetic on nullable integer columns: a null operand gives null. *)
Definition col_sub (a b : option Z) : option Z :=
  match a, b with Some x, Some y => Some (x - y)%Z | _, _ => None end.

Definition col_add1 (a : option Z) : option Z := (λ x, (x + 1)%Z) <$> a.

(** [num / den] on columns, [den] nullable. *)
Definition col_div (num : Z) (den : option Z) : option Q :=
  (λ d, (inject_Z num / inject_Z d)%Q) <$> den.

(** *** Tables used in examples *)

Definition all_columns : list string :=
  [TAXON_KEY_COL; SPECIES_COL; YEAR_COL; SITE_CODE_COL; SITE_NAME_COL; MS_COL;
   SITETYPE_COL].

Definition sample_row (k : Z) (y : option Z) (code : option string) : row :=
  {| taxonKey := Some k; scientificName := Some "Aquila chrysaetos"; year := y;
     SITECODE := code; SITENAME := code; MS := Some "GR"; SITETYPE := Some "B" |}.

(** Taxon 5 at site X in 2001 and 2003, taxon 3 at site Y in 2000 only
    (twice), and one occurrence outside every site. *)
Definition sample_frame : frame :=
  {| columns := all_columns;
     rows := [ sample_row 5 (Some 2001%Z) (Some "X");
               sample_row 5 (Some 2003%Z) (Some "X");
               sample_row 3 (Some 2000%Z) (Some "Y");
               sample_row 3 (Some 2000%Z) (Some "Y");
               sample_row 3 (Some 1990%Z) None ] |}.

(** A table in which no occurrence matched a site. *)
Definition unmatched_frame : frame :=
  {| columns := all_columns;
     rows := [ sample_row 5 (Some 2001%Z) None; sample_row 3 (Some 2000%Z) None ] |}.

(** The joined table as [gpd.read_file] hands it to the metrics scripts:
    the columns of the occurrence table, [index_right] and the attribute
    columns of the sites layer; a site attribute that is absent is null. *)
Definition read_joined (site_columns : list string) (gdf_joined : list Join.joined)
    : frame :=
  {| columns := ["taxonKey"; "scientificName"; "decimalLatitude"; "decimalLongitude";
                 "countryCode"; "basisOfRecord"; "coordinateUncertaintyInMeters";
                 "year"; "month"; "eventDate"; "index_right"] ++ site_columns;
     rows := map (λ o, {| taxonKey := Filter.taxonKey (Join.occurrence o);
                          scientificName := Filter.scientificName (Join.occurrence o);
                          year := cell_value (Filter.year (Join.occurrence o));
                          SITECODE := Join.site_attrs o !! SITE_CODE_COL;
                          SITENAME := Join.site_attrs o !! SITE_NAME_COL;
                          MS := Join.site_attrs o !! MS_COL;
                          SITETYPE := Join.site_attrs o !! SITETYPE_COL |})
                 gdf_joined |}.

End Metrics.

(** *** [04_basic_metrics_gbif_natura.py] *)

Module Basic.
Import Metrics.

Record site_metric : Type := {
  site_code : string;
  site_name : option string;
  ms : option string;
  site_type : option string;
  n_occurrences : nat;
  n_species : nat;
  years : option year_stats
}.

Record ms_metric : Type := {
  ms_code : string;
  ms_n_occurrences : nat;
  ms_n_sites : nat;
  ms_n_species : nat;
  ms_years : option year_stats
}.

Inductive artifact : Type :=
  | SITES_METRICS_CSV (t : list site_metric)
  | MS_METRICS_CSV (t : list ms_metric).

Definition temporal (has_year : bool) (g : list row) : option year_stats :=
  if has_year then Some (agg_years g) else None.

Definition sites_metrics (has_year : bool) (df : list row) : list site_metric :=
  map (λ '(k, g),
         {| site_code := k;
            site_name := agg_first SITENAME g;
            ms := agg_first MS g;
            site_type := agg_first SITETYPE g;
            n_occurrences := agg_size g;
            n_species := agg_nunique scientificName g;
            years := temporal has_year g |})
      (groupby sort_codes SITECODE df).

Definition ms_metrics (has_year : bool) (df : list row) : list ms_metric :=
  map (λ '(k, g),
         {| ms_code := k;
            ms_n_occurrences := agg_size g;
            ms_n_sites := agg_nunique SITECODE g;
            ms_n_species := agg_nunique scientificName g;
            ms_years := temporal has_year g |})
      (groupby sort_codes MS df).

(** The script from the loaded table on. *)
Definition main (df : frame) : script artifact () :=
  let has_year := has_col df YEAR_COL in
  let d := df_in_site df in
  (if bool_decide (rows d = []) then raise (SystemExit 0) else mret ());;
  require d SITE_NAME_COL;; require d MS_COL;; require d SITETYPE_COL;;
  require d TAXON_KEY_COL;; require d SPECIES_COL;;
  write (SITES_METRICS_CSV (sites_metrics has_year (rows d)));;
  (if has_col d MS_COL then
     write (MS_METRICS_CSV (ms_metrics has_year (rows d)))
   else mret ()).

End Basic.

(** *** [05_advanced_metrics_gbif_natura.py] *)

Module Advanced.
Import Metrics.

(** [temporal_span.replace(0, pd.NA)]. *)
Definition replace_zero (span : option Z) : option Z :=
  match span with
  | Some 0%Z => None
  | s => s
  end.

(** The general formula [n_years / (span + 1)] on the column in which a
    zero span has been replaced by [NA]. *)
Definition general_completeness (n_years : nat) (temporal_span : option Z) : option Q :=
  col_div (Z.of_nat n_years) (col_add1 (replace_zero temporal_span)).

(** [species_metrics.loc[temporal_span == 0, "temporal_completeness"] = 1.0]
    applied on top of the general formula. *)
Definition completeness (n_years : nat) (temporal_span : option Z) : option Q :=
  if bool_decide (temporal_span = Some 0%Z) then Some 1%Q
  else general_completeness n_years temporal_span.

Record species_temporal : Type := {
  sp_years : year_stats;
  temporal_span : option Z;
  temporal_completeness : option Q
}.

Record species_metric : Type := {
  sp_taxonKey : Z;
  sp_scientificName : option string;
  n_occurrences_natura : nat;
  n_sites : nat;
  n_ms : nat;
  sp_temporal : option species_temporal
}.

Definition species_temporal_of (g : list row) : species_temporal :=
  let ys := agg_years g in
  let span := col_sub (year_max ys) (year_min ys) in
  {| sp_years := ys;
     temporal_span := span;
     temporal_completeness := completeness (n_years ys) span |}.

Definition species_metrics (has_year : bool) (df : list row) : list species_metric :=
  map (λ '(k, g),
         {| sp_taxonKey := k;
            sp_scientificName := agg_first scientificName g;
            n_occurrences_natura := agg_size g;
            n_sites := agg_nunique SITECODE g;
            n_ms := agg_nunique MS g;
            sp_temporal := if has_year then Some (species_temporal_of g) else None |})
      (groupby sort_keys taxonKey df).

Record sitetype_metric : Type := {
  st_site_type : string;
  st_n_sites : nat;
  st_n_occurrences : nat;
  st_n_species : nat;
  st_years : option year_stats
}.

Definition sitetype_metrics (has_year : bool) (df : list row) : list sitetype_metric :=
  map (λ '(k, g),
         {| st_site_type := k;
            st_n_sites := agg_nunique SITECODE g;
            st_n_occurrences := agg_size g;
            st_n_species := agg_nunique scientificName g;
            st_years := if has_year then Some (agg_years g) else None |})
      (groupby sort_codes SITETYPE df).

Record site_gap : Type := {
  gap_site_code : string;
  gap_site_name : option string;
  gap_ms : option string;
  gap_site_type : option string;
  gap_years : year_stats;
  gap_n_occurrences : nat;
  expected_years : option Z;
  missing_years : option Z;
  gap_fraction : option Q
}.

(** [Series.clip(lower=0, upper=1)] on one value. *)
Definition clip01 (x : Q) : Q := Qmin (Qmax x 0%Q) 1%Q.

Definition site_gap_of (k : string) (g : list row) : site_gap :=
  let ys := agg_years g in
  let expected := col_add1 (col_sub (year_max ys) (year_min ys)) in
  let missing := col_sub expected (Some (Z.of_nat (n_years ys))) in
  let fraction :=
    match missing, expected with
    | Some m, Some e => Some (inject_Z m / inject_Z e)%Q
    | _, _ => None
    end in
  {| gap_site_code := k;
     gap_site_name := agg_first SITENAME g;
     gap_ms := agg_first MS g;
     gap_site_type := agg_first SITETYPE g;
     gap_years := ys;
     gap_n_occurrences := agg_size g;
     expected_years := expected;
     missing_years := missing;
     gap_fraction := clip01 <$> fraction |}.

Definition sites_gaps (df : list row) : list site_gap :=
  map (λ '(k, g), site_gap_of k g) (groupby sort_codes SITECODE df).

Inductive artifact : Type :=
  | SPECIES_METRICS_CSV (t : list species_metric)
  | SITETYPE_METRICS_CSV (t : list sitetype_metric)
  | SITES_GAPS_CSV (t : list site_gap).

(** The script from the loaded table on. *)
Definition main (df : frame) : script artifact () :=
  let has_year := has_col df YEAR_COL in
  let d := df_in_site df in
  (if bool_decide (rows d = []) then raise (SystemExit 0) else mret ());;
  (if has_col d TAXON_KEY_COL then
     require d SPECIES_COL;; require d SITE_CODE_COL;; require d MS_COL;;
     write (SPECIES_METRICS_CSV (species_metrics has_year (rows d)))
   else mret ());;
  (if has_col d SITETYPE_COL then
     require d SITE_CODE_COL;; require d TAXON_KEY_COL;; require d SPECIES_COL;;
     write (SITETYPE_METRICS_CSV (sitetype_metrics has_year (rows d)))
   else mret ());;
  (if has_year && has_col d SITE_CODE_COL then
     require d SITE_NAME_COL;; require d MS_COL;; require d SITETYPE_COL;;
     require d TAXON_KEY_COL;;
     write (SITES_GAPS_CSV (sites_gaps (rows d)))
   else mret ()).

End Advanced.

(** ** Site preparation ([02_prepare_natura_sites.py]) and the layer checks
    of the join script *)

Module Sites.

(** A coordinate reference system: one with an EPSG code, or one without
    ([crs.to_epsg()] is [None]). *)
Inductive crs_def : Type :=
  | EPSG (code : Z)
  | OtherCRS (wkt : string).

Definition to_epsg (c : crs_def) : option Z :=
  match c with EPSG code => Some code | OtherCRS _ => None end.

Section Reprojection.

Variable polygon : Type.

(** [GeoSeries.to_crs]: the reprojection of one geometry from a reference
    system to EPSG:4326, a parameter of the script. *)
Variable to_wgs84 : crs_def → polygon → polygon.

(** A vector layer as [gpd.read_file] returns it: its reference system, if
    it has one, and its table. *)
Record geodataframe : Type := {
  crs : option crs_def;
  table : Join.layer polygon
}.

Inductive result : Type :=
  | CrsUndefined
  | Ready (gdf : geodataframe).

(** [if gdf.crs.to_epsg() != 4326: gdf = gdf.to_crs(epsg=4326)]. *)
Definition reproject (c : crs_def) (gdf : geodataframe) : geodataframe :=
  if bool_decide (to_epsg c = Some 4326%Z) then gdf
  else
    {| crs := Some (EPSG 4326);
       table :=
         {| Join.columns := Join.columns (table gdf);
            Join.sites :=
              map (λ s, {| Join.attrs := Join.attrs s;
                           Join.geometry := to_wgs84 c (Join.geometry s) |})
                  (Join.sites (table gdf)) |} |}.

Definition SITE_CODE_COL := "SITECODE".
Definition NAME_COL := "SITENAME".
Definition COUNTRY_COL := "COUNTRY".
Definition TYPE_COL := "SITETYPE".

Definition missing_cols (gdf : geodataframe) : list string :=
  List.filter (λ col, negb (bool_decide (col ∈ Join.columns (table gdf))))
    [SITE_CODE_COL; NAME_COL; COUNTRY_COL; TYPE_COL].

(** [gdf[keep_cols].copy()] when the four columns exist, [gdf.copy()]
    otherwise. *)
Definition gdf_clean (gdf : geodataframe) : geodataframe :=
  match missing_cols gdf with
  | [] =>
      let keep_cols := [SITE_CODE_COL; NAME_COL; COUNTRY_COL; TYPE_COL] in
      {| crs := crs gdf;
         table :=
           {| Join.columns := keep_cols;
              Join.sites :=
                map (λ s, {| Join.attrs := filter (λ kv, kv.1 ∈ keep_cols) (Join.attrs s);
                             Join.geometry := Join.geometry s |})
                    (Join.sites (table gdf)) |} |}
  | _ => gdf
  end.

(** The preparation script: the layer it saves, or the [ValueError] for a
    layer without reference system. *)
Definition prepare (gdf : geodataframe) : result :=
  match crs gdf with
  | None => CrsUndefined
  | Some c => Ready (gdf_clean (reproject c gdf))
  end.

(** The same steps as the join script applies them to the layer it loads:
    reference-system check, reprojection, column selection. *)
Definition load_for_join (gdf_natura : geodataframe) : result :=
  match crs gdf_natura with
  | None => CrsUndefined
  | Some c =>
      let gdf := reproject c gdf_natura in
      Ready {| crs := crs gdf; table := Join.gdf_natura_join (table gdf) |}
  end.

End Reprojection.

Arguments crs {polygon} _.
Arguments table {polygon} _.
Arguments CrsUndefined {polygon}.
Arguments Ready {polygon} _.
Arguments reproject {polygon} _ _ _.
Arguments missing_cols {polygon} _.
Arguments gdf_clean {polygon} _.
Arguments prepare {polygon} _ _.
Arguments load_for_join {polygon} _ _.

(** A layer in the ETRS89-LAEA system (EPSG:3035) with one column more
    than the four that are kept; the reprojection of the example shifts a
    rectangle by one degree. *)
Definition shift_rect (c : crs_def) (b : Join.rect) : Join.rect :=
  let '(xmin, ymin, xmax, ymax) := b in
  (xmin + 1, ymin + 1, xmax + 1, ymax + 1)%Q.

Definition sample_gdf : geodataframe Join.rect :=
  {| crs := Some (EPSG 3035);
     table :=
       {| Join.columns := ["SITECODE"; "SITENAME"; "COUNTRY"; "SITETYPE"; "RELEASE"];
          Join.sites :=
            [ {| Join.attrs := {[ "SITECODE" := "GR001"; "SITENAME" := "Site";
                                  "COUNTRY" := "GR"; "SITETYPE" := "B";
                                  "RELEASE" := "2022" ]};
                 Join.geometry := (20, 34, 24, 38)%Q |} ] |} |}.

End Sites.

(** ** Spatial validation ([01_validate_spatial_input.py]) *)

Module Validate.

(** The two coordinate columns of the filtered table as [pd.read_csv]
    types them: numeric, a missing value being [NaN]. *)
Record row : Type := {
  decimalLongitude : option Q;
  decimalLatitude : option Q
}.

Record frame : Type := {
  columns : list string;
  rows : list row
}.

Definition COL_LONGITUDE := "decimalLongitude".
Definition COL_LATITUDE := "decimalLatitude".

(** [df[col].isna().sum()]. *)
Definition missing (col : row → option Q) (df : list row) : nat :=
  length (List.filter (λ r, negb (bool_decide (is_Some (col r)))) df).

(** [Series.between(lo, hi)] on one value: both ends included, [False]
    for [NaN]. *)
Definition between (lo hi : Q) (x : option Q) : bool :=
  match x with
  | Some v => Qle_bool lo v && Qle_bool v hi
  | None => false
  end.

(** [df[col].between(lo, hi).all()]. *)
Definition range_ok (col : row → option Q) (lo hi : Q) (df : list row) : bool :=
  forallb (λ r, between lo hi (col r)) df.

Inductive message : Type :=
  | ValidationStarted (n_rows : nat)
  | MissingValues (missing_lon missing_lat : nat)
  | RangeValidation (lat_range_ok lon_range_ok : bool)
  | NoMissingCoordinates
  | MissingCoordinatesDetected
  | CoordinateRangesValid
  | InvalidCoordinatesDetected
  | StructurallyReady
  | ValidationCompleted.

(** [df[col]] for a column that may be absent. *)
Definition column (df : frame) (name : string) : script message () :=
  if bool_decide (name ∈ columns df) then mret () else raise (KeyError name).

(** The script from the loaded table on; what it writes is its log. *)
Definition main (df : frame) : script message () :=
  write (ValidationStarted (length (rows df)));;
  column df COL_LONGITUDE;;
  let missing_lon := missing decimalLongitude (rows df) in
  column df COL_LATITUDE;;
  let missing_lat := missing decimalLatitude (rows df) in
  write (MissingValues missing_lon missing_lat);;
  let lat_range_ok := range_ok decimalLatitude (-90)%Q 90%Q (rows df) in
  let lon_range_ok := range_ok decimalLongitude (-180)%Q 180%Q (rows df) in
  write (RangeValidation lat_range_ok lon_range_ok);;
  (if bool_decide (missing_lon = 0) && bool_decide (missing_lat = 0)
   then write NoMissingCoordinates
   else write MissingCoordinatesDetected);;
  (if lat_range_ok && lon_range_ok
   then write CoordinateRangesValid
   else write InvalidCoordinatesDetected);;
  write StructurallyReady;;
  write ValidationCompleted.

(** The filtered table read back from its CSV file: a null or unparsed
    cell is [NaN]. *)
Definition read_filtered (filtered_df : list Filter.row) : frame :=
  {| columns := ["taxonKey"; "scientificName"; "decimalLatitude"; "decimalLongitude";
                 "countryCode"; "basisOfRecord"; "coordinateUncertaintyInMeters";
                 "year"; "month"; "eventDate"];
     rows := map (λ r, {| decimalLongitude := cell_value (Filter.decimalLongitude r);
                          decimalLatitude := cell_value (Filter.decimalLatitude r) |})
                 filtered_df |}.

(** A bounding box inside the valid coordinate ranges. *)
Definition greece_config : Filter.config :=
  {| Filter.LAT_MIN := Some 34%Q; Filter.LAT_MAX := Some 42%Q;
     Filter.LON_MIN := Some 19%Q; Filter.LON_MAX := Some 29%Q;
     Filter.YEAR_MIN := None; Filter.YEAR_MAX := None |}.

End Validate.

(** ** Summary tables ([helpers/filtered_data_summary.py]) *)

Module Summary.

(** The four columns of the filtered table that are summarised; [year] is
    read with the nullable integer type. *)
Record row : Type := {
  scientificName : option string;
  countryCode : option string;
  year : option Z;
  basisOfRecord : option string
}.

Record frame : Type := {
  columns : list string;
  rows : list row
}.

(** [df.groupby(col).size().reset_index(name="occurrences")]: one line per
    distinct non-null value, in ascending order of the value, with the
    number of rows that carry it. *)
Definition group_sizes `{EqDecision K} (sort : list K → list K)
    (col : row → option K) (df : list row) : list (K * nat) :=
  map (λ k, (k, length (List.filter (λ r, bool_decide (col r = Some k)) df)))
      (sort (unique (omap col df))).

(** [.sort_values("occurrences", ascending=False)].  Lines with equal
    counts stay in the order of the grouping here; pandas leaves their
    order open. *)
Definition more_frequent {K} (a b : K * nat) : Prop := b.2 ≤ a.2.

#[global] Instance more_frequent_dec {K} (a b : K * nat) :
  Decision (more_frequent a b) := decide (b.2 ≤ a.2).

Definition by_occurrences_desc {K} (t : list (K * nat)) : list (K * nat) :=
  merge_sort more_frequent t.

(** [.sort_values("year")]. *)
Definition earlier (a b : Z * nat) : Prop := (a.1 ≤ b.1)%Z.

#[global] Instance earlier_dec (a b : Z * nat) :
  Decision (earlier a b) := decide (a.1 ≤ b.1)%Z.

Definition by_year (t : list (Z * nat)) : list (Z * nat) :=
  merge_sort earlier t.

Definition species_summary (df : list row) : list (string * nat) :=
  by_occurrences_desc (group_sizes (merge_sort String.le) scientificName df).

Definition country_summary (df : list row) : list (string * nat) :=
  by_occurrences_desc (group_sizes (merge_sort String.le) countryCode df).

Definition year_summary (df : list row) : list (Z * nat) :=
  by_year (group_sizes (merge_sort Z.le) year df).

Definition basis_summary (df : list row) : list (string * nat) :=
  by_occurrences_desc (group_sizes (merge_sort String.le) basisOfRecord df).

Inductive artifact : Type :=
  | SPECIES_FILE (t : list (string * nat))
  | COUNTRY_FILE (t : list (string * nat))
  | YEAR_FILE (t : list (Z * nat))
  | BASIS_FILE (t : list (string * nat)).

Definition has_col (df : frame) (col : string) : bool :=
  bool_decide (col ∈ columns df).

(** The script from the loaded table on. *)
Definition main (df : frame) : script artifact () :=
  (if has_col df "scientificName"
   then write (SPECIES_FILE (species_summary (rows df))) else mret ());;
  (if has_col df "countryCode"
   then write (COUNTRY_FILE (country_summary (rows df))) else mret ());;
  (if has_col df "year"
   then write (YEAR_FILE (year_summary (rows df))) else mret ());;
  (if has_col df "basisOfRecord"
   then write (BASIS_FILE (basis_summary (rows df))) else mret ()).

(** What a summary table is meant to be for a column: one line per value,
    each with the positive number of rows that carry the value, the lines
    adding up to the rows in which the column is not null. *)
Definition counts_of `{EqDecision K} (col : row → option K) (df : list row)
    (t : list (K * nat)) : Prop :=
  NoDup (map fst t)
  ∧ (∀ k n, (k, n) ∈ t
        ↔ 0 < n ∧ n = length (List.filter (λ r, bool_decide (col r = Some k)) df))
  ∧ sum_list (map snd t) = length (omap col df).

(** The filtered table read back from its CSV file. *)
Definition read_filtered (filtered_df : list Filter.row) : list row :=
  map (λ r, {| scientificName := Filter.scientificName r;
               countryCode := Filter.countryCode r;
               year := cell_value (Filter.year r);
               basisOfRecord := Filter.basisOfRecord r |})
      filtered_df.

End Summary.

(** * Properties *)

(** ** Series, masks and counters *)

Section Series.
Context {A : Type}.
Implicit Types (p q : A → bool) (l : list A).

Lemma series_and_map p q l :
  series_and (map p l) (map q l) = map (λ x, p x && q x) l.
Proof. unfold series_and. induction l as [|x l IH]; simpl; [done | by rewrite IH]. Qed.

Lemma select_map p l : select l (map p l) = List.filter p l.
Proof. induction l as [|x l IH]; simpl; [done | rewrite IH; by destruct (p x)]. Qed.

Lemma filter_absorb p q l :
  (∀ x, p x = true → q x = true) →
  List.filter p (List.filter q l) = List.filter p l.
Proof.
  intros Hpq. induction l as [|x l IH]; simpl; [done|].
  destruct (q x) eqn:Hq; simpl; destruct (p x) eqn:Hp; rewrite ?IH; try done.
  apply Hpq in Hp. congruence.
Qed.

Lemma filter_conj p q l :
  List.filter p (List.filter q l) = List.filter (λ x, q x && p x) l.
Proof.
  induction l as [|x l IH]; simpl; [done|].
  destruct (q x); simpl; [destruct (p x)|]; by rewrite IH.
Qed.

Lemma filter_map_comm {B} (f : A → B) (p' : B → bool) l :
  List.filter p' (map f l) = map f (List.filter (λ x, p' (f x)) l).
Proof.
  induction l as [|x l IH]; simpl; [done|].
  destruct (p' (f x)); simpl; by rewrite IH.
Qed.

Lemma filter_length_mono p q l :
  (∀ x, p x = true → q x = true) →
  length (List.filter p l) ≤ length (List.filter q l).
Proof.
  intros Hpq. induction l as [|x l IH]; simpl; [done|].
  destruct (p x) eqn:Hp.
  - rewrite (Hpq _ Hp). simpl. lia.
  - destruct (q x); simpl; lia.
Qed.

End Series.

Section Counter.
Context `{Countable K}.
Implicit Types (c : gmap K nat) (k : K) (xs : list K).

Lemma sum_values_incr c k : sum_values (counter_incr c k) = S (sum_values c).
Proof.
  unfold sum_values, counter_incr.
  assert (Hcomm : ∀ z1 z2 y : nat, z1 + (z2 + y) = z2 + (z1 + y))
    by (intros; lia).
  destruct (c !! k) as [v|] eqn:Hk; simpl.
  - rewrite <-(insert_delete_eq c k (S v)).
    rewrite map_fold_insert_L; [| intros; apply Hcomm | apply lookup_delete_eq].
    rewrite (map_fold_delete_L _ _ k v c); [lia | intros; apply Hcomm | done].
  - rewrite map_fold_insert_L; [lia | intros; apply Hcomm | done].
Qed.

Lemma sum_values_update c xs :
  sum_values (counter_update c xs) = sum_values c + length xs.
Proof.
  unfold counter_update. revert c.
  induction xs as [|x xs IH]; intros c; simpl; [lia|].
  rewrite IH, sum_values_incr. lia.
Qed.

Lemma dom_counter_update c xs :
  dom (counter_update c xs) = dom c ∪ list_to_set xs.
Proof.
  unfold counter_update. revert c.
  induction xs as [|x xs IH]; intros c; simpl; [set_solver|].
  rewrite IH. unfold counter_incr. rewrite dom_insert_L. set_solver.
Qed.

Lemma sum_values_empty : sum_values (∅ : gmap K nat) = 0.
Proof. apply map_fold_empty. Qed.

End Counter.

(** ** Quality filter *)

Section FilterFacts.
Import Filter.

Lemma cmp_cell_to_numeric {A} (rel : A → A → bool) (c : cell A) b :
  cmp_cell rel (to_numeric c) b = cmp_cell rel c b.
Proof. by destruct c. Qed.

Lemma to_numeric_idemp {A} (c : cell A) : to_numeric (to_numeric c) = to_numeric c.
Proof. by destruct c. Qed.

Lemma bound_ok_to_numeric {A} (rel : A → A → bool) bound (c : cell A) :
  bound_ok rel bound (to_numeric c) = bound_ok rel bound c.
Proof. unfold bound_ok. destruct bound; [by rewrite to_numeric_idemp | done]. Qed.

Lemma and_bound_pointwise {A} (bound : option A) rel col chunk (p : row → bool) :
  and_bound bound rel col chunk (map p chunk)
  = map (λ r, p r && bound_ok rel bound (col r)) chunk.
Proof.
  unfold and_bound, bound_ok. destruct bound as [b|].
  - rewrite series_and_map. apply map_ext. intros r.
    by rewrite cmp_cell_to_numeric.
  - apply map_ext. intros r. by rewrite andb_true_r.
Qed.

Lemma build_mask_pointwise cfg chunk :
  build_mask cfg chunk = map (mask_entry cfg) chunk.
Proof.
  unfold build_mask. rewrite !series_and_map.
  destruct (any_spatial cfg) eqn:Hsp.
  - rewrite !and_bound_pointwise. apply map_ext. intros r.
    unfold mask_entry, optional_ok. simpl. by rewrite !andb_assoc.
  - rewrite !and_bound_pointwise. apply map_ext. intros r.
    unfold mask_entry, optional_ok. unfold any_spatial in Hsp.
    destruct (LAT_MIN cfg), (LAT_MAX cfg), (LON_MIN cfg), (LON_MAX cfg);
      try discriminate Hsp.
    simpl. by rewrite ?andb_true_r, !andb_assoc.
Qed.

Lemma mask_entry_year cfg r :
  year_filter_active cfg = true → mask_entry cfg r = true → notna (year r) = true.
Proof.
  unfold year_filter_active, mask_entry, optional_ok, bound_ok.
  intros Hact Hm. apply andb_prop in Hm as [_ Hopt].
  apply andb_prop in Hopt as [Hopt Hmax]. apply andb_prop in Hopt as [_ Hmin].
  destruct (YEAR_MIN cfg), (YEAR_MAX cfg); try discriminate Hact;
    destruct (year r); simpl in *; done.
Qed.

Lemma mask_entry_coerce cfg r :
  critical_present r && mask_entry cfg (coerce_row r) = passes_all cfg r.
Proof.
  unfold passes_all, mandatory_ok, mask_entry, uncertainty_below_threshold.
  assert (optional_ok cfg (coerce_row r) = optional_ok cfg r) as ->.
  { unfold optional_ok. simpl. by rewrite !bound_ok_to_numeric. }
  simpl. destruct (coordinateUncertaintyInMeters r); simpl;
    by rewrite !andb_assoc.
Qed.

(** The filtered chunk is obtained by testing every row on its own. *)
Lemma filter_chunk_spec cfg chunk :
  filter_chunk cfg chunk = coerce_numeric (List.filter (passes_all cfg) chunk).
Proof.
  unfold filter_chunk, dropna_year, dropna_critical, coerce_numeric.
  rewrite build_mask_pointwise, select_map.
  assert (List.filter (mask_entry cfg)
            (map coerce_row (List.filter critical_present chunk))
          = map coerce_row (List.filter (passes_all cfg) chunk)) as Hgoal.
  { rewrite filter_map_comm, filter_conj. f_equal.
    apply filter_ext. intros r. apply mask_entry_coerce. }
  destruct (year_filter_active cfg) eqn:Hact; [|done].
  rewrite filter_absorb; [done|]. intros r. by apply mask_entry_year.
Qed.

Lemma bound_ok_lower_Q new old c :
  tighter_lower Qle new old →
  bound_ok Qge_bool new c = true → bound_ok Qge_bool old c = true.
Proof.
  unfold tighter_lower, bound_ok, Qge_bool.
  destruct old as [o|], new as [n|]; try done.
  destruct (to_numeric c); simpl; try done.
  rewrite !Qle_bool_iff. intros ??. by eapply Qle_trans.
Qed.

Lemma bound_ok_upper_Q new old c :
  tighter_upper Qle new old →
  bound_ok Qle_bool new c = true → bound_ok Qle_bool old c = true.
Proof.
  unfold tighter_upper, bound_ok.
  destruct old as [o|], new as [n|]; try done.
  destruct (to_numeric c); simpl; try done.
  rewrite !Qle_bool_iff. intros ??. by eapply Qle_trans.
Qed.

Lemma bound_ok_lower_Z new old c :
  tighter_lower Z.le new old →
  bound_ok Z.geb new c = true → bound_ok Z.geb old c = true.
Proof.
  unfold tighter_lower, bound_ok.
  destruct old as [o|], new as [n|]; try done.
  destruct (to_numeric c); simpl; try done.
  rewrite !Z.geb_leb, !Z.leb_le. lia.
Qed.

Lemma bound_ok_upper_Z new old c :
  tighter_upper Z.le new old →
  bound_ok Z.leb new c = true → bound_ok Z.leb old c = true.
Proof.
  unfold tighter_upper, bound_ok.
  destruct old as [o|], new as [n|]; try done.
  destruct (to_numeric c); simpl; try done.
  rewrite !Z.leb_le. lia.
Qed.

Lemma passes_all_tighter new old r :
  tighter new old → passes_all new r = true → passes_all old r = true.
Proof.
  intros (H1 & H2 & H3 & H4 & H5 & H6). unfold passes_all, optional_ok.
  rewrite !andb_true_iff.
  intros (Hm & ((((B1 & B2) & B3) & B4) & B5) & B6).
  repeat split; [done | | | | | |].
  - by apply (bound_ok_lower_Q (LAT_MIN new)).
  - by apply (bound_ok_upper_Q (LAT_MAX new)).
  - by apply (bound_ok_lower_Q (LON_MIN new)).
  - by apply (bound_ok_upper_Q (LON_MAX new)).
  - by apply (bound_ok_lower_Z (YEAR_MIN new)).
  - by apply (bound_ok_upper_Z (YEAR_MAX new)).
Qed.

End FilterFacts.

Section FilterClaims.
Import Filter.

Lemma filter_chunk_basis cfg chunk r :
  r ∈ filter_chunk cfg chunk → is_Some (basisOfRecord r).
Proof.
  rewrite filter_chunk_spec. unfold coerce_numeric.
  intros (r0 & -> & Hin)%list_elem_of_fmap.
  apply list_elem_of_In, filter_In in Hin as [_ Hp].
  unfold passes_all, mandatory_ok in Hp. rewrite !andb_true_iff in Hp.
  destruct Hp as [[[_ Hb] _] _]. simpl.
  destruct (basisOfRecord r0); [eauto | done].
Qed.

Lemma length_dropna_basis cfg chunk :
  length (dropna_col basisOfRecord (filter_chunk cfg chunk))
  = length (filter_chunk cfg chunk).
Proof.
  assert (Hall : ∀ r, r ∈ filter_chunk cfg chunk → is_Some (basisOfRecord r))
    by (intros r; apply filter_chunk_basis).
  induction (filter_chunk cfg chunk) as [|r l IH]; [done|].
  unfold dropna_col in *. simpl.
  destruct (Hall r) as [b ->]; [left|]. simpl. f_equal.
  apply IH. intros r' Hr'. apply Hall. by right.
Qed.

Lemma consistent_init : consistent init_state.
Proof.
  unfold consistent. simpl. rewrite sum_values_empty.
  repeat split; try done; rewrite dom_empty_L; set_solver.
Qed.

Lemma consistent_step cfg st chunk :
  consistent st → consistent (process_chunk cfg st chunk).
Proof.
  unfold consistent, process_chunk.
  intros (Hsum & Hlen & Hsp & Htx & Hco & Hba & Hyr).
  pose proof (length_dropna_basis cfg chunk) as Hbasis.
  set (fc := filter_chunk cfg chunk) in *. simpl.
  rewrite concat_app. simpl. rewrite app_nil_r.
  unfold dropna_col in *. rewrite !fmap_app, !omap_app, !list_to_set_app_L.
  rewrite length_app.
  case_bool_decide as Hempty; simpl.
  - rewrite Hempty in *. simpl. repeat split; first [lia | set_solver].
  - rewrite sum_values_update, !dom_counter_update, Hbasis.
    repeat split; first [lia | set_solver].
Qed.

Lemma consistent_loop cfg chunks st :
  consistent st → consistent (foldl (process_chunk cfg) st chunks).
Proof.
  revert st. induction chunks as [|chunk chunks IH]; intros st Hst; [done|].
  simpl. by apply IH, consistent_step.
Qed.

Lemma filtered_data_loop cfg chunks st :
  filtered_data (foldl (process_chunk cfg) st chunks)
  = filtered_data st ++ map (filter_chunk cfg) chunks.
Proof.
  revert st. induction chunks as [|chunk chunks IH]; intros st; simpl.
  - by rewrite app_nil_r.
  - rewrite IH. simpl. by rewrite <-app_assoc.
Qed.

(** C1. For every batch the filtered output consists of exactly the rows
    that pass every mandatory predicate (non-null scientificName, taxonKey,
    decimalLatitude, decimalLongitude; basisOfRecord in the allowed set;
    coordinate uncertainty, null counting as 0, strictly below 1000) and
    every configured spatial and temporal bound, each tested on the row
    alone; and tightening the bounds never increases the number of output
    rows. *)
Theorem filter_conjunction_monotone (cfg : config) (chunk : list row) :
  filter_chunk cfg chunk = coerce_numeric (List.filter (passes_all cfg) chunk)
  ∧ (∀ r', r' ∈ filter_chunk cfg chunk
           ↔ ∃ r, r ∈ chunk ∧ passes_all cfg r = true ∧ r' = coerce_row r)
  ∧ (∀ cfg', tighter cfg' cfg →
       length (filter_chunk cfg' chunk) ≤ length (filter_chunk cfg chunk)).
Proof.
  split; [apply filter_chunk_spec|]. split.
  - intros r'. rewrite filter_chunk_spec. unfold coerce_numeric.
    rewrite list_elem_of_fmap. split.
    + intros (r & -> & Hin). apply list_elem_of_In, filter_In in Hin as [Hin Hp].
      exists r. by rewrite list_elem_of_In.
    + intros (r & Hin & Hp & ->). exists r. split; [done|].
      apply list_elem_of_In, filter_In. by rewrite <-list_elem_of_In.
  - intros cfg' Ht. rewrite !filter_chunk_spec. unfold coerce_numeric.
    rewrite !length_map. apply filter_length_mono.
    intros r. by apply passes_all_tighter.
Qed.

Lemma filter_conjunction_monotone_witness :
  tighter tight_config loose_config
  ∧ length (filter_chunk tight_config sample_chunk)
    ≤ length (filter_chunk loose_config sample_chunk).
Proof.
  assert (Ht : tighter tight_config loose_config).
  { unfold tighter, tight_config, loose_config. simpl.
    repeat split; try done. }
  split; [exact Ht|].
  exact (proj2 (proj2 (filter_conjunction_monotone loose_config sample_chunk))
           tight_config Ht).
Defined.

(** C2. In a batch of three rows, row A (null coordinate uncertainty, basis
    HUMAN_OBSERVATION) passes the fixed <1000 m threshold, the null counting
    as 0; row B (uncertainty 1500) fails; row C (basis FOSSIL_SPECIMEN)
    fails whatever its other fields are. *)
Theorem null_uncertainty_passes_scenario (cfg : config) (a b c : row) :
  critical_present a = true →
  optional_ok cfg a = true →
  filter_chunk cfg [row_A a; row_B b; row_C c] = [coerce_row (row_A a)]
  ∧ filter_chunk cfg [row_A a] = [coerce_row (row_A a)]
  ∧ filter_chunk cfg [row_B b] = []
  ∧ filter_chunk cfg [row_C c] = [].
Proof.
  intros Hcrit Hopt.
  assert (HA : passes_all cfg (row_A a) = true).
  { unfold passes_all, mandatory_ok.
    change (critical_present (row_A a)) with (critical_present a).
    change (optional_ok cfg (row_A a)) with (optional_ok cfg a).
    by rewrite Hcrit, Hopt. }
  assert (HB : passes_all cfg (row_B b) = false).
  { unfold passes_all, mandatory_ok.
    replace (uncertainty_below_threshold (row_B b)) with false by done.
    by rewrite andb_false_r. }
  assert (HC : passes_all cfg (row_C c) = false).
  { unfold passes_all, mandatory_ok.
    replace (isin_allowed (basisOfRecord (row_C c))) with false by done.
    by rewrite andb_false_r. }
  rewrite !filter_chunk_spec. simpl. by rewrite HA, HB, HC.
Qed.

Lemma null_uncertainty_passes_scenario_witness :
  filter_chunk default_config
    [row_A (sample_row 35%Q 1999%Z); row_B (sample_row 37%Q 2005%Z);
     row_C (sample_row 41%Q 2012%Z)]
  = [coerce_row (row_A (sample_row 35%Q 1999%Z))].
Proof.
  exact (proj1 (null_uncertainty_passes_scenario default_config
                  (sample_row 35%Q 1999%Z) (sample_row 37%Q 2005%Z)
                  (sample_row 41%Q 2012%Z) eq_refl eq_refl)).
Defined.

(** C3 (as the script behaves). When a non-empty input yields no surviving
    row, the script still writes the (empty) filtered table and prints no
    diagnostic; when the input yields no chunk at all, it prints the
    diagnostic and writes no table, but then stops with [NameError] while
    writing the report. *)
Theorem no_survivors_outcome :
  filter_chunk default_config [row_C (sample_row 35%Q 1999%Z)] = []
  ∧ FILTERED_FILE [] ∈ (run_script (main default_config
                                      [[row_C (sample_row 35%Q 1999%Z)]])).1
  ∧ ((Print "No data after filtering.")
      ∉ (run_script (main default_config [[row_C (sample_row 35%Q 1999%Z)]])).1)
  ∧ (main default_config [] []).2 = inl (NameError "filtered_df")
  ∧ (run_script (main default_config [])).2 = 1%Z.
Proof.
  split; [reflexivity|].
  repeat match goal with
         | |- context [run_script ?m] =>
             let r := eval vm_compute in (run_script m) in
             change (run_script m) with r
         end.
  split; [left|]. split; [|split; reflexivity].
  simpl. intros Hin.
  repeat (apply elem_of_cons in Hin as [Hin|Hin]; [discriminate Hin|]).
  by apply elem_of_nil in Hin.
Qed.

(** C4. After every batch has been processed, the values of
    [basis_counter] sum to the filtered record count, which is the number
    of rows of the filtered table, and the key set of each of the five
    counters is contained in the values the filtered table holds for that
    field: the counters are fed by surviving rows only. *)
Theorem counters_match_filtered_table (cfg : config) (chunks : list (list row)) :
  concat (filtered_data (run_loop cfg chunks)) = concat (map (filter_chunk cfg) chunks)
  ∧ sum_values (basis_counter (run_loop cfg chunks))
    = filtered_records (run_loop cfg chunks)
  ∧ filtered_records (run_loop cfg chunks)
    = length (concat (filtered_data (run_loop cfg chunks)))
  ∧ dom (species_counter (run_loop cfg chunks))
      ⊆ list_to_set (map scientificName (concat (filtered_data (run_loop cfg chunks))))
  ∧ dom (taxon_counter (run_loop cfg chunks))
      ⊆ list_to_set (map taxonKey (concat (filtered_data (run_loop cfg chunks))))
  ∧ dom (country_counter (run_loop cfg chunks))
      ⊆ list_to_set (dropna_col countryCode (concat (filtered_data (run_loop cfg chunks))))
  ∧ dom (basis_counter (run_loop cfg chunks))
      ⊆ list_to_set (dropna_col basisOfRecord (concat (filtered_data (run_loop cfg chunks))))
  ∧ dom (year_counter (run_loop cfg chunks))
      ⊆ list_to_set (dropna_col (λ r, cell_value (year r))
                       (concat (filtered_data (run_loop cfg chunks)))).
Proof.
  split.
  - unfold run_loop. by rewrite filtered_data_loop.
  - apply (consistent_loop cfg chunks init_state consistent_init).
Qed.

End FilterClaims.

(** ** Distinct values *)

Section Unique.
Context `{EqDecision A}.
Implicit Types (l : list A) (x : A).

Lemma elem_of_unique l x : x ∈ unique l ↔ x ∈ l.
Proof. unfold unique. by rewrite elem_of_reverse, elem_of_remove_dups, elem_of_reverse. Qed.

Lemma NoDup_unique l : NoDup (unique l).
Proof. unfold unique. rewrite reverse_Permutation. apply NoDup_remove_dups. Qed.

End Unique.

(** ** Taxon keys of the download predicate *)

Section AcquisitionClaims.
Import Acquisition.
Context (str_is_numeric : string → bool) (int_of_str : string → option Z)
        (cast_out_of_range : Q → option Z).






End AcquisitionClaims.



(** ** Spatial join *)

Section JoinClaims.
Import Join.
Context {polygon : Type} (within : Q * Q → polygon → bool).

Lemma filter_none {B} (p : B → bool) (l : list B) :
  (∀ x, x ∈ l → p x = false) → List.filter p l = [].
Proof.
  induction l as [|x l IH]; intros Hall; [done|]. simpl.
  rewrite (Hall x) by left. apply IH. intros y Hy. apply Hall. by right.
Qed.

Lemma filter_all {B} (p : B → bool) (l : list B) :
  (∀ x, x ∈ l → p x = true) → List.filter p l = l.
Proof.
  induction l as [|x l IH]; intros Hall; [done|]. simpl.
  rewrite (Hall x) by left. f_equal. apply IH. intros y Hy. apply Hall. by right.
Qed.

Lemma elem_of_concat_imap {B C} (f : nat → B → list C) (l : list B) (o : C) :
  o ∈ concat (imap f l) → ∃ j x, l !! j = Some x ∧ o ∈ f j x.
Proof.
  rewrite list_elem_of_In, in_concat. intros (os & Hos & Ho).
  apply list_elem_of_In, elem_of_lookup_imap in Hos as (j & x & -> & Hj).
  exists j, x. by rewrite list_elem_of_In.
Qed.

Lemma filter_index_concat_imap {B C} (f : nat → B → list C) (idx : C → nat)
    (l : list B) (n i : nat) (r : B) :
  (∀ j x o, o ∈ f j x → idx o = j) →
  l !! i = Some r →
  List.filter (λ o, bool_decide (idx o = n + i)) (concat (imap (λ j, f (n + j)) l))
  = f (n + i) r.
Proof.
  intros Hf. revert n i. induction l as [|x l IH]; intros n i Hl; [done|].
  simpl. rewrite List.filter_app. destruct i as [|i]; simpl in Hl.
  - injection Hl as ->. rewrite filter_all, filter_none; [by rewrite app_nil_r | |].
    + intros o (j & y & _ & Ho)%elem_of_concat_imap. simpl in Ho.
      apply Hf in Ho. apply bool_decide_eq_false. lia.
    + intros o Ho. apply Hf in Ho. apply bool_decide_eq_true. lia.
  - rewrite filter_none; simpl.
    + replace (n + S i) with (S n + i) by lia.
      rewrite <-(IH (S n) i Hl). f_equal. f_equal.
      apply imap_ext. intros j y _. simpl. f_equal. lia.
    + intros o Ho. apply Hf in Ho. apply bool_decide_eq_false. lia.
Qed.

Lemma join_row_index right j x o :
  o ∈ join_row within right j x → index o = j.
Proof.
  unfold join_row. destruct (matches within right (point_of x)) as [|m ms].
  - intros ->%list_elem_of_singleton. done.
  - intros (js & -> & _)%list_elem_of_fmap. done.
Qed.

Lemma join_row_length right j x :
  length (join_row within right j x)
  = Nat.max 1 (length (matches within right (point_of x))).
Proof.
  unfold join_row. destruct (matches within right (point_of x)) as [|m ms]; [done|].
  rewrite length_map. simpl. lia.
Qed.

Lemma matches_spec right p n s :
  (n, s) ∈ matches within right p → sites right !! n = Some s ∧ contains within p s = true.
Proof.
  unfold matches. rewrite list_elem_of_In, filter_In. intros [Hin Hc].
  apply list_elem_of_In, elem_of_lookup_imap in Hin as (j & y & [= -> ->] & Hj).
  done.
Qed.

(** C7. The join keeps every occurrence: the output rows that carry the
    index of an input occurrence number at least one; when no polygon
    strictly contains the point there is exactly one such row, with a null
    [index_right] and null site attributes; when [k > 0] polygons contain
    it there are exactly [k], one per containing site and carrying that
    site's attributes. *)
Theorem left_join_cardinality (left : list Filter.row) (gdf_natura : layer polygon)
    (i : nat) (r : Filter.row) :
  left !! i = Some r →
  let right := gdf_natura_join gdf_natura in
  let rows_i := List.filter (λ o, bool_decide (index o = i))
                  (gdf_joined within left gdf_natura) in
  let k := length (matches within right (point_of r)) in
  1 ≤ length rows_i
  ∧ length rows_i = Nat.max 1 k
  ∧ (∀ o, o ∈ rows_i → occurrence o = r)
  ∧ (k = 0 →
     rows_i = [ {| index := i; occurrence := r; index_right := None; site_attrs := ∅ |} ])
  ∧ (0 < k →
     length rows_i = k
     ∧ ∀ o, o ∈ rows_i →
         ∃ n s, index_right o = Some n ∧ sites right !! n = Some s
                ∧ contains within (point_of r) s = true
                ∧ site_attrs o = attrs s).
Proof.
  intros Hi right rows_i k.
  assert (Hrows : rows_i = join_row within right i r).
  { subst rows_i. unfold gdf_joined, sjoin_left.
    apply (filter_index_concat_imap (join_row within right) index left 0 i r);
      [apply join_row_index | done]. }
  assert (Hlen : length rows_i = Nat.max 1 k)
    by (rewrite Hrows; apply join_row_length).
  split; [lia|]. split; [done|]. rewrite Hrows. subst k.
  unfold join_row in *.
  destruct (matches within right (point_of r)) as [|m ms] eqn:Hm; simpl.
  - split; [by intros o ->%list_elem_of_singleton|]. split; [done | lia].
  - split.
    { intros o [->|Ho]%elem_of_cons; [done|].
      by apply list_elem_of_fmap in Ho as (js & -> & _). }
    split; [done|]. intros _. split; [by rewrite length_map|].
    intros o Ho.
    assert (∃ js, js ∈ m :: ms ∧ o = {| index := i; occurrence := r;
                    index_right := Some js.1; site_attrs := attrs js.2 |})
      as ([n s] & Hjs & ->).
    { apply elem_of_cons in Ho as [->|Ho]; [exists m; split; [left|done]|].
      apply list_elem_of_fmap in Ho as (js & -> & Hjs). exists js. split; [by right|done]. }
    rewrite <-Hm in Hjs. apply matches_spec in Hjs as [Hs Hc].
    exists n, s. done.
Qed.

End JoinClaims.

Lemma left_join_cardinality_witness :
  Join.sample_points !! 0 = Some (Filter.sample_row 37%Q 2005%Z)
  ∧ length (List.filter (λ o, bool_decide (Join.index o = 0))
              (Join.gdf_joined Join.within_rect Join.sample_points Join.sample_layer))
    = 2.
Proof.
  split; [reflexivity|].
  etrans.
  - exact (proj1 (proj2 (left_join_cardinality Join.within_rect Join.sample_points
                           Join.sample_layer 0 (Filter.sample_row 37%Q 2005%Z) eq_refl))).
  - vm_compute. reflexivity.
Defined.

(** ** Metrics *)

Section YearFacts.
Implicit Types (l : list Z) (x m : Z).

Lemma foldr_min_spec x l :
  foldr Z.min x l ∈ x :: l ∧ ∀ y, y ∈ x :: l → (foldr Z.min x l ≤ y)%Z.
Proof.
  induction l as [|a l [IHin IHle]]; simpl.
  - split; [left|]. intros y ->%list_elem_of_singleton. lia.
  - split.
    + destruct (Z.min_spec a (foldr Z.min x l)) as [[_ ->]|[_ ->]].
      * right. left.
      * apply elem_of_cons in IHin as [->|Hin]; [left | right; by right].
    + intros y Hy.
      assert (Hcases : y = a ∨ y ∈ x :: l).
      { apply elem_of_cons in Hy as [->|Hy]; [right; left|].
        apply elem_of_cons in Hy as [->|Hy]; [by left | right; by right]. }
      destruct Hcases as [->|Hy']; [lia|]. specialize (IHle y Hy'). lia.
Qed.

Lemma foldr_max_spec x l :
  foldr Z.max x l ∈ x :: l ∧ ∀ y, y ∈ x :: l → (y ≤ foldr Z.max x l)%Z.
Proof.
  induction l as [|a l [IHin IHle]]; simpl.
  - split; [left|]. intros y ->%list_elem_of_singleton. lia.
  - split.
    + destruct (Z.max_spec a (foldr Z.max x l)) as [[_ ->]|[_ ->]].
      * apply elem_of_cons in IHin as [->|Hin]; [left | right; by right].
      * right. left.
    + intros y Hy.
      assert (Hcases : y = a ∨ y ∈ x :: l).
      { apply elem_of_cons in Hy as [->|Hy]; [right; left|].
        apply elem_of_cons in Hy as [->|Hy]; [by left | right; by right]. }
      destruct Hcases as [->|Hy']; [lia|]. specialize (IHle y Hy'). lia.
Qed.

Lemma series_min_spec l m :
  series_min l = Some m → m ∈ l ∧ ∀ y, y ∈ l → (m ≤ y)%Z.
Proof. destruct l as [|x l]; [done|]. intros [= <-]. apply foldr_min_spec. Qed.

Lemma series_max_spec l m :
  series_max l = Some m → m ∈ l ∧ ∀ y, y ∈ l → (y ≤ m)%Z.
Proof. destruct l as [|x l]; [done|]. intros [= <-]. apply foldr_max_spec. Qed.

Lemma series_min_max_nonempty l :
  l ≠ [] → ∃ lo hi, series_min l = Some lo ∧ series_max l = Some hi.
Proof. destruct l; [done|]. intros _. simpl. eauto. Qed.

(** Distinct integers inside an interval are no more than its width. *)
Lemma NoDup_range_length l (lo hi : Z) :
  NoDup l → (∀ y, y ∈ l → (lo ≤ y ≤ hi)%Z) → length l ≤ Z.to_nat (hi - lo + 1).
Proof.
  intros Hnd Hin. rewrite <-(length_seqZ lo (hi - lo + 1)).
  apply submseteq_length, NoDup_submseteq; [done|].
  intros y Hy. apply elem_of_seqZ. specialize (Hin y Hy). lia.
Qed.

(** The years of a group: bounds and number of distinct values. *)
Lemma years_span l :
  1 ≤ nunique l →
  ∃ lo hi, series_min l = Some lo ∧ series_max l = Some hi
           ∧ (lo ≤ hi)%Z ∧ (Z.of_nat (nunique l) ≤ hi - lo + 1)%Z.
Proof.
  unfold nunique. intros Hn.
  assert (Hne : l ≠ []) by (intros ->; cbv in Hn; lia).
  destruct (series_min_max_nonempty l Hne) as (lo & hi & Hlo & Hhi).
  exists lo, hi. split; [done|]. split; [done|].
  apply series_min_spec in Hlo as [Hlo_in Hlo]. apply series_max_spec in Hhi as [_ Hhi].
  assert (lo ≤ hi)%Z by by apply Hhi. split; [done|].
  assert (length (unique l) ≤ Z.to_nat (hi - lo + 1)); [|lia].
  apply NoDup_range_length; [apply NoDup_unique|].
  intros y Hy. rewrite elem_of_unique in Hy. split; [by apply Hlo | by apply Hhi].
Qed.

Lemma years_single l :
  nunique l = 1 → ∃ y, series_min l = Some y ∧ series_max l = Some y.
Proof.
  unfold nunique. intros Hn.
  destruct (unique l) as [|y [|z u]] eqn:Hu; simpl in Hn; try lia.
  assert (Hall : ∀ x, x ∈ l → x = y).
  { intros x Hx. rewrite <-elem_of_unique, Hu in Hx.
    by apply list_elem_of_singleton in Hx. }
  assert (Hne : l ≠ []) by (intros ->; cbv in Hu; discriminate Hu).
  destruct (series_min_max_nonempty l Hne) as (lo & hi & Hlo & Hhi).
  exists y. rewrite Hlo, Hhi.
  apply series_min_spec in Hlo as [Hlo _]. apply series_max_spec in Hhi as [Hhi _].
  by rewrite (Hall lo Hlo), (Hall hi Hhi).
Qed.

End YearFacts.

Section MetricsClaims.
Import Metrics.


Lemma sort_keys_elem l x : x ∈ sort_keys l → x ∈ l.
Proof. unfold sort_keys. by rewrite merge_sort_Permutation. Qed.

Lemma sort_codes_elem l x : x ∈ sort_codes l → x ∈ l.
Proof. unfold sort_codes. by rewrite merge_sort_Permutation. Qed.

(** *** Species level: span and completeness *)

Lemma species_temporal_single (g : list row) :
  n_years (agg_years g) = 1 →
  Advanced.temporal_span (Advanced.species_temporal_of g) = Some 0%Z
  ∧ Advanced.temporal_completeness (Advanced.species_temporal_of g) = Some 1%Q
  ∧ Advanced.general_completeness (n_years (agg_years g))
      (Advanced.temporal_span (Advanced.species_temporal_of g)) = None.
Proof.
  unfold Advanced.species_temporal_of, agg_years, agg_nunique. simpl.
  intros (y & -> & ->)%years_single. simpl.
  rewrite Z.sub_diag. done.
Qed.

Lemma ratio_bounds (n d : Z) :
  (0 < n)%Z → (n ≤ d)%Z →
  (0 < inject_Z n / inject_Z d)%Q ∧ (inject_Z n / inject_Z d <= 1)%Q.
Proof.
  intros Hn Hd.
  assert (Hd0 : (0 < inject_Z d)%Q) by (rewrite <-(Zlt_Qlt 0); lia).
  split.
  - apply Qlt_shift_div_l; [done|]. rewrite Qmult_0_l, <-(Zlt_Qlt 0). lia.
  - apply Qle_shift_div_r; [done|]. rewrite Qmult_1_l, <-Zle_Qle. lia.
Qed.

Lemma replace_zero_nonzero (s : Z) :
  s ≠ 0%Z → Advanced.replace_zero (Some s) = Some s.
Proof. by destruct s. Qed.

Lemma species_temporal_bounds (g : list row) :
  1 ≤ n_years (agg_years g) →
  ∃ lo hi c,
    year_min (agg_years g) = Some lo ∧ year_max (agg_years g) = Some hi
    ∧ (lo ≤ hi)%Z
    ∧ Advanced.temporal_span (Advanced.species_temporal_of g) = Some (hi - lo)%Z
    ∧ (Z.of_nat (n_years (agg_years g)) ≤ (hi - lo) + 1)%Z
    ∧ Advanced.temporal_completeness (Advanced.species_temporal_of g) = Some c
    ∧ (0 < c)%Q ∧ (c <= 1)%Q.
Proof.
  unfold Advanced.species_temporal_of, agg_years, agg_nunique. simpl.
  intros Hn. destruct (years_span _ Hn) as (lo & hi & -> & -> & Hle & Hcount).
  simpl. unfold Advanced.completeness.
  case_bool_decide as Hspan.
  - exists lo, hi, 1%Q. done.
  - assert (Hnz : (hi - lo ≠ 0)%Z) by congruence.
    unfold Advanced.general_completeness.
    rewrite (replace_zero_nonzero _ Hnz). simpl.
    eexists lo, hi, _. repeat split; try done; apply ratio_bounds; lia.
Qed.

Lemma elem_of_species_metrics has_year df m t :
  m ∈ Advanced.species_metrics has_year df →
  Advanced.sp_temporal m = Some t →
  ∃ g, t = Advanced.species_temporal_of g.
Proof.
  unfold Advanced.species_metrics. rewrite list_elem_of_fmap.
  intros ([k g] & -> & _). simpl. destruct has_year; [|done].
  intros [= <-]. by exists g.
Qed.

(** C5. A taxon observed in exactly one distinct year has
    [temporal_span = 0] and [temporal_completeness = 1.0]; the value comes
    from the single-year assignment, the general formula yielding [NA] for
    that row because its zero span was replaced by [NA] before the
    division. *)
Theorem single_year_completeness (has_year : bool) (df : list row)
    (m : Advanced.species_metric) (t : Advanced.species_temporal) :
  m ∈ Advanced.species_metrics has_year df →
  Advanced.sp_temporal m = Some t →
  n_years (Advanced.sp_years t) = 1 →
  Advanced.temporal_span t = Some 0%Z
  ∧ Advanced.temporal_completeness t = Some 1%Q
  ∧ Advanced.general_completeness (n_years (Advanced.sp_years t))
      (Advanced.temporal_span t) = None.
Proof.
  intros Hm Ht Hn.
  destruct (elem_of_species_metrics _ _ _ _ Hm Ht) as (g & ->).
  by apply species_temporal_single.
Qed.

(** C10. For every taxon group with year data the number of distinct years
    is at most [temporal_span + 1], the years lying between [year_min] and
    [year_max]; hence the unclamped [temporal_completeness] is greater than
    0 and at most 1. *)
Theorem completeness_within_unit_interval (has_year : bool) (df : list row)
    (m : Advanced.species_metric) (t : Advanced.species_temporal) :
  m ∈ Advanced.species_metrics has_year df →
  Advanced.sp_temporal m = Some t →
  1 ≤ n_years (Advanced.sp_years t) →
  ∃ lo hi c,
    year_min (Advanced.sp_years t) = Some lo
    ∧ year_max (Advanced.sp_years t) = Some hi
    ∧ (lo ≤ hi)%Z
    ∧ Advanced.temporal_span t = Some (hi - lo)%Z
    ∧ (Z.of_nat (n_years (Advanced.sp_years t)) ≤ (hi - lo) + 1)%Z
    ∧ Advanced.temporal_completeness t = Some c
    ∧ (0 < c)%Q ∧ (c <= 1)%Q.
Proof.
  intros Hm Ht Hn.
  destruct (elem_of_species_metrics _ _ _ _ Hm Ht) as (g & ->).
  by apply species_temporal_bounds.
Qed.

(** *** Site level: temporal gaps *)

Lemma clip01_bounds (x : Q) : (0 <= Advanced.clip01 x)%Q ∧ (Advanced.clip01 x <= 1)%Q.
Proof.
  unfold Advanced.clip01. split.
  - apply Q.min_glb; [apply Q.le_max_r | done].
  - apply Q.le_min_r.
Qed.

Lemma clip01_id (x : Q) :
  (0 <= x)%Q → (x <= 1)%Q → (Advanced.clip01 x == x)%Q.
Proof.
  intros H0 H1. unfold Advanced.clip01.
  rewrite (Q.max_l x 0 H0). by apply Q.min_l.
Qed.

Lemma ratio_zero_iff (m e : Z) :
  (0 ≤ m)%Z → (m < e)%Z → (inject_Z m / inject_Z e == 0)%Q ↔ m = 0%Z.
Proof.
  intros Hm He. split.
  - intros Heq. destruct (decide (m = 0%Z)) as [|Hne]; [done|]. exfalso.
    assert (0 < inject_Z m / inject_Z e)%Q as Hpos by (apply ratio_bounds; lia).
    rewrite Heq in Hpos. by apply Qlt_irrefl in Hpos.
  - intros ->. unfold Qdiv. apply Qmult_0_l.
Qed.

Lemma site_gap_bounds (k : string) (g : list row) :
  1 ≤ n_years (agg_years g) →
  ∃ lo hi f,
    year_min (agg_years g) = Some lo ∧ year_max (agg_years g) = Some hi
    ∧ Advanced.expected_years (Advanced.site_gap_of k g) = Some (hi - lo + 1)%Z
    ∧ Advanced.missing_years (Advanced.site_gap_of k g)
      = Some (hi - lo + 1 - Z.of_nat (n_years (agg_years g)))%Z
    ∧ Advanced.gap_fraction (Advanced.site_gap_of k g) = Some f
    ∧ (0 <= f)%Q ∧ (f <= 1)%Q
    ∧ ((f == 0)%Q ↔ (hi - lo + 1 - Z.of_nat (n_years (agg_years g)))%Z = 0%Z).
Proof.
  unfold Advanced.site_gap_of, agg_years, agg_nunique. simpl.
  intros Hn. destruct (years_span _ Hn) as (lo & hi & -> & -> & Hle & Hcount).
  simpl. eexists lo, hi, _. repeat split; try done.
  - apply clip01_bounds.
  - apply clip01_bounds.
  - intros Hz. apply (ratio_zero_iff _ (hi - lo + 1)); [lia | lia |].
    rewrite <-Hz. symmetry. apply clip01_id.
    + apply Qle_shift_div_l; [rewrite <-(Zlt_Qlt 0); lia|].
      rewrite Qmult_0_l, <-(Zle_Qle 0). lia.
    + apply Qle_shift_div_r; [rewrite <-(Zlt_Qlt 0); lia|].
      rewrite Qmult_1_l, <-Zle_Qle. lia.
  - intros Hz. rewrite Hz. reflexivity.
Qed.

(** C6. For every site with at least one year of data, with
    [expected_years = year_max - year_min + 1] and
    [missing_years = expected_years - n_years], the gap fraction lies in
    [0, 1] and is 0 exactly when no year is missing. *)
Theorem gap_fraction_bounds (df : list row) (s : Advanced.site_gap) :
  s ∈ Advanced.sites_gaps df →
  1 ≤ n_years (Advanced.gap_years s) →
  ∃ lo hi f,
    year_min (Advanced.gap_years s) = Some lo
    ∧ year_max (Advanced.gap_years s) = Some hi
    ∧ Advanced.expected_years s = Some (hi - lo + 1)%Z
    ∧ Advanced.missing_years s
      = Some (hi - lo + 1 - Z.of_nat (n_years (Advanced.gap_years s)))%Z
    ∧ Advanced.gap_fraction s = Some f
    ∧ (0 <= f)%Q ∧ (f <= 1)%Q
    ∧ ((f == 0)%Q
       ↔ (hi - lo + 1 - Z.of_nat (n_years (Advanced.gap_years s)))%Z = 0%Z).
Proof.
  unfold Advanced.sites_gaps. rewrite list_elem_of_fmap.
  intros ([k g] & -> & _) Hn. by apply site_gap_bounds.
Qed.

(** *** Rows without a site *)


Ltac run_main :=
  unfold run_script, require, raise, write, mbind, mret, script_bind, script_ret;
  repeat match goal with
         | |- context [has_col ?d ?c] => destruct (has_col d c)
         end;
  simpl.

Lemma df_in_site_columns (df : frame) : columns (df_in_site df) = columns df.
Proof. unfold df_in_site. by destruct (has_col df SITE_CODE_COL). Qed.

Lemma df_in_site_elem (df : frame) (r : row) :
  r ∈ rows (df_in_site df)
  ↔ SITE_CODE_COL ∈ columns df ∧ r ∈ rows df ∧ is_Some (SITECODE r).
Proof.
  unfold df_in_site, has_col. case_bool_decide as Hcol; simpl.
  - rewrite list_elem_of_In, filter_In, bool_decide_eq_true, <-list_elem_of_In.
    naive_solver.
  - split; [by intros ?%elem_of_nil | by intros [? _]].
Qed.

Lemma df_in_site_empty (df : frame) :
  rows (df_in_site df) = []
  ↔ SITE_CODE_COL ∉ columns df ∨ ∀ r, r ∈ rows df → SITECODE r = None.
Proof.
  split.
  - intros Hempty. destruct (decide (SITE_CODE_COL ∈ columns df)) as [Hcol|]; [|by left].
    right. intros r Hr. destruct (SITECODE r) as [code|] eqn:Hcode; [|done].
    assert (Hin : r ∈ rows (df_in_site df)).
    { apply df_in_site_elem. by rewrite Hcode. }
    rewrite Hempty in Hin. by apply elem_of_nil in Hin.
  - intros Hnone. destruct (rows (df_in_site df)) as [|r l] eqn:Hrows; [done|].
    assert (Hin : r ∈ rows (df_in_site df)) by (rewrite Hrows; left).
    apply df_in_site_elem in Hin as (Hcol & Hr & Hcode).
    destruct Hnone as [?|Hnone]; [done|]. rewrite (Hnone r Hr) in Hcode.
    by destruct Hcode.
Qed.

(** C9. Both metrics scripts work on the rows with a non-null site code
    only: the rows they keep are exactly the rows of the table that carry
    a site code (none when the table has no site-code column), and every
    table they write is computed from those rows.  When no row carries a
    site code, each script stops with exit status 0 and has written
    nothing; the basic script does so in that case only.  When some row
    carries a site code and the table has all its columns, each script
    writes its tables, computed from the rows it kept, and ends with
    status 0. *)
Theorem metrics_restricted_to_sites (df : frame) :
  (∀ r, r ∈ rows (df_in_site df)
        ↔ SITE_CODE_COL ∈ columns df ∧ r ∈ rows df ∧ is_Some (SITECODE r))
  ∧ (∀ a, a ∈ (run_script (Basic.main df)).1 →
       a = Basic.SITES_METRICS_CSV
             (Basic.sites_metrics (has_col df YEAR_COL) (rows (df_in_site df)))
       ∨ a = Basic.MS_METRICS_CSV
               (Basic.ms_metrics (has_col df YEAR_COL) (rows (df_in_site df))))
  ∧ (∀ a, a ∈ (run_script (Advanced.main df)).1 →
       a = Advanced.SPECIES_METRICS_CSV
             (Advanced.species_metrics (has_col df YEAR_COL) (rows (df_in_site df)))
       ∨ a = Advanced.SITETYPE_METRICS_CSV
               (Advanced.sitetype_metrics (has_col df YEAR_COL) (rows (df_in_site df)))
       ∨ a = Advanced.SITES_GAPS_CSV (Advanced.sites_gaps (rows (df_in_site df))))
  ∧ (SITE_CODE_COL ∉ columns df ∨ (∀ r, r ∈ rows df → SITECODE r = None) →
       run_script (Basic.main df) = ([], 0%Z)
       ∧ run_script (Advanced.main df) = ([], 0%Z))
  ∧ (run_script (Basic.main df) = ([], 0%Z) →
       SITE_CODE_COL ∉ columns df ∨ ∀ r, r ∈ rows df → SITECODE r = None)
  ∧ ((∃ r, r ∈ rows df ∧ is_Some (SITECODE r)) →
     (∀ col, col ∈ all_columns → col ∈ columns df) →
     let kept := List.filter (λ r, bool_decide (is_Some (SITECODE r))) (rows df) in
     run_script (Basic.main df)
     = ([Basic.SITES_METRICS_CSV (Basic.sites_metrics true kept);
         Basic.MS_METRICS_CSV (Basic.ms_metrics true kept)], 0%Z)
     ∧ run_script (Advanced.main df)
       = ([Advanced.SPECIES_METRICS_CSV (Advanced.species_metrics true kept);
           Advanced.SITETYPE_METRICS_CSV (Advanced.sitetype_metrics true kept);
           Advanced.SITES_GAPS_CSV (Advanced.sites_gaps kept)], 0%Z)).
Proof.
  split; [apply df_in_site_elem|].
  split; [|split; [|split; [|split]]].
  - unfold Basic.main. set (d := df_in_site df). set (hy := has_col df YEAR_COL).
    clearbody hy. case_bool_decide; run_main;
      intros a Ha; set_solver.
  - unfold Advanced.main. set (d := df_in_site df). set (hy := has_col df YEAR_COL).
    clearbody hy. case_bool_decide; destruct hy; run_main;
      intros a Ha; set_solver.
  - intros Hempty%df_in_site_empty. unfold Basic.main, Advanced.main. rewrite Hempty.
    rewrite bool_decide_eq_true_2 by done. done.
  - intros Hrun. apply df_in_site_empty. revert Hrun.
    unfold Basic.main. set (d := df_in_site df). set (hy := has_col df YEAR_COL).
    clearbody hy. case_bool_decide as Hrows; [done|]. run_main; discriminate.
  - intros (r & Hr & Hcode) Hcols kept.
    assert (Hhas : ∀ col, col ∈ all_columns → has_col df col = true).
    { intros col Hcol. apply bool_decide_eq_true_2. auto. }
    assert (Hd : df_in_site df = {| columns := columns df; rows := kept |}).
    { unfold df_in_site. rewrite (Hhas SITE_CODE_COL); [done|]. set_solver. }
    assert (Hkept : kept ≠ []).
    { intros Hnil. assert (Hin : r ∈ kept); [|rewrite Hnil in Hin; by apply elem_of_nil in Hin].
      apply list_elem_of_In, filter_In. rewrite <-list_elem_of_In.
      by rewrite bool_decide_eq_true. }
    assert (Hhas' : ∀ col, col ∈ all_columns →
              has_col {| columns := columns df; rows := kept |} col = true).
    { intros col Hcol. exact (Hhas col Hcol). }
    unfold Basic.main, Advanced.main. rewrite Hd. simpl rows.
    rewrite (bool_decide_eq_false_2 _ Hkept).
    unfold require.
    rewrite (Hhas YEAR_COL), (Hhas' SITE_CODE_COL), (Hhas' SITE_NAME_COL),
      (Hhas' MS_COL), (Hhas' SITETYPE_COL), (Hhas' TAXON_KEY_COL), (Hhas' SPECIES_COL)
      by (unfold all_columns; set_solver).
    done.
Qed.

Lemma metrics_restricted_to_sites_witness :
  (∀ r, r ∈ rows unmatched_frame → SITECODE r = None)
  ∧ run_script (Basic.main unmatched_frame) = ([], 0%Z)
  ∧ run_script (Advanced.main unmatched_frame) = ([], 0%Z).
Proof.
  assert (Hnone : ∀ r, r ∈ rows unmatched_frame → SITECODE r = None).
  { intros r Hr. repeat (apply elem_of_cons in Hr as [->|Hr]; [reflexivity|]).
    by apply elem_of_nil in Hr. }
  split; [exact Hnone|].
  exact (proj1 (proj2 (proj2 (proj2 (metrics_restricted_to_sites unmatched_frame))))
           (or_intror Hnone)).
Defined.

Lemma single_year_completeness_witness :
  ∃ m t,
    Advanced.species_metrics true (rows (df_in_site sample_frame)) !! 0 = Some m
    ∧ Advanced.sp_temporal m = Some t
    ∧ n_years (Advanced.sp_years t) = 1
    ∧ Advanced.temporal_span t = Some 0%Z
    ∧ Advanced.temporal_completeness t = Some 1%Q.
Proof.
  eexists _, _.
  edestruct (single_year_completeness true (rows (df_in_site sample_frame)))
    as (Hspan & Hc & _).
  - apply list_elem_of_lookup. exists 0. vm_compute. reflexivity.
  - reflexivity.
  - reflexivity.
  - split; [vm_compute; reflexivity|]. split; [reflexivity|].
    split; [reflexivity|]. split; [exact Hspan | exact Hc].
Defined.

Lemma completeness_within_unit_interval_witness :
  ∃ m t c,
    Advanced.species_metrics true (rows (df_in_site sample_frame)) !! 1 = Some m
    ∧ Advanced.sp_temporal m = Some t
    ∧ 1 ≤ n_years (Advanced.sp_years t)
    ∧ Advanced.temporal_completeness t = Some c
    ∧ (0 < c)%Q ∧ (c <= 1)%Q.
Proof.
  eexists _, _.
  edestruct (completeness_within_unit_interval true (rows (df_in_site sample_frame)))
    as (lo & hi & c & _ & _ & _ & _ & _ & Hc & Hpos & Hle).
  - apply list_elem_of_lookup. exists 1. vm_compute. reflexivity.
  - reflexivity.
  - vm_compute. lia.
  - exists c. split; [vm_compute; reflexivity|]. split; [reflexivity|].
    split; [vm_compute; lia|]. done.
Defined.

Lemma gap_fraction_bounds_witness :
  ∃ s f,
    Advanced.sites_gaps (rows (df_in_site sample_frame)) !! 0 = Some s
    ∧ 1 ≤ n_years (Advanced.gap_years s)
    ∧ Advanced.gap_fraction s = Some f
    ∧ (0 <= f)%Q ∧ (f <= 1)%Q.
Proof.
  eexists _.
  edestruct (gap_fraction_bounds (rows (df_in_site sample_frame)))
    as (lo & hi & f & _ & _ & _ & _ & Hf & H0 & H1 & _).
  - apply list_elem_of_lookup. exists 0. vm_compute. reflexivity.
  - vm_compute. lia.
  - exists f. split; [vm_compute; reflexivity|]. split; [vm_compute; lia|]. done.
Defined.

(** The scenario of a site observed in 2001 and 2003: three expected
    years, one missing, a gap fraction of one third. *)
Example gap_scenario_2001_2003 :
  ∃ s, Advanced.sites_gaps (rows (df_in_site sample_frame)) !! 0 = Some s
       ∧ Advanced.gap_site_code s = "X"
       ∧ Advanced.gap_years s
         = {| year_min := Some 2001%Z; year_max := Some 2003%Z; n_years := 2 |}
       ∧ Advanced.expected_years s = Some 3%Z
       ∧ Advanced.missing_years s = Some 1%Z
       ∧ Advanced.gap_fraction s = Some (1 # 3)%Q.
Proof. eexists. split; [vm_compute; reflexivity|]. repeat split. Qed.

End MetricsClaims.

(** ** Further properties of the quality filter *)

Section FilterRun.
Import Filter.

Lemma filter_chunk_app cfg c1 c2 :
  filter_chunk cfg (c1 ++ c2) = filter_chunk cfg c1 ++ filter_chunk cfg c2.
Proof.
  rewrite !filter_chunk_spec. unfold coerce_numeric.
  by rewrite List.filter_app, map_app.
Qed.

Lemma filter_chunk_concat cfg chunks :
  concat (map (filter_chunk cfg) chunks) = filter_chunk cfg (concat chunks).
Proof.
  induction chunks as [|c chunks IH]; simpl.
  - by rewrite filter_chunk_spec.
  - by rewrite filter_chunk_app, IH.
Qed.

Lemma filter_chunk_length_le cfg chunk :
  length (filter_chunk cfg chunk) ≤ length chunk.
Proof.
  rewrite filter_chunk_spec. unfold coerce_numeric. rewrite length_map.
  induction chunk as [|r l IH]; simpl; [done|].
  destruct (passes_all cfg r); simpl; lia.
Qed.

Lemma total_records_loop cfg chunks st :
  total_records (foldl (process_chunk cfg) st chunks)
  = total_records st + length (concat chunks).
Proof.
  revert st. induction chunks as [|c chunks IH]; intros st; simpl; [lia|].
  rewrite IH, length_app. simpl. lia.
Qed.

Lemma filtered_records_loop cfg chunks st :
  filtered_records (foldl (process_chunk cfg) st chunks)
  = filtered_records st + length (filter_chunk cfg (concat chunks)).
Proof.
  revert st. induction chunks as [|c chunks IH]; intros st; simpl.
  - rewrite filter_chunk_spec. simpl. lia.
  - rewrite IH, filter_chunk_app, length_app. simpl. lia.
Qed.

Lemma run_loop_closed_form (cfg : config) (chunks : list (list row)) :
  concat (filtered_data (run_loop cfg chunks)) = filter_chunk cfg (concat chunks)
  ∧ total_records (run_loop cfg chunks) = length (concat chunks)
  ∧ filtered_records (run_loop cfg chunks)
    = length (filter_chunk cfg (concat chunks)).
Proof.
  unfold run_loop. rewrite filtered_data_loop, total_records_loop,
    filtered_records_loop. simpl. by rewrite filter_chunk_concat.
Qed.

(** X1. Chunking is invisible in the result: whatever way the input is cut
    into chunks, the filtered table is the filter applied to the whole
    input in its original order, and the two record counts are the sizes
    of the input and of that table. *)
Theorem chunking_is_transparent (cfg : config) (chunks : list (list row)) :
  concat (filtered_data (run_loop cfg chunks)) = filter_chunk cfg (concat chunks)
  ∧ total_records (run_loop cfg chunks) = length (concat chunks)
  ∧ filtered_records (run_loop cfg chunks)
    = length (filter_chunk cfg (concat chunks)).
Proof.
  unfold run_loop. split; [|split].
  - rewrite filtered_data_loop. simpl. apply filter_chunk_concat.
  - by rewrite total_records_loop.
  - by rewrite filtered_records_loop.
Qed.

(** X2. The retention ratio written to the report is a percentage: it lies
    between 0 and 100, and it is 0 (no division takes place) when the
    input holds no record. *)
Theorem retention_ratio_is_percentage (cfg : config) (chunks : list (list row)) :
  (0 <= retention_ratio (run_loop cfg chunks))%Q
  ∧ (retention_ratio (run_loop cfg chunks) <= 100)%Q
  ∧ (concat chunks = [] → retention_ratio (run_loop cfg chunks) = 0%Q).
Proof.
  unfold retention_ratio.
  destruct (run_loop_closed_form cfg chunks) as (_ & -> & ->).
  pose proof (filter_chunk_length_le cfg (concat chunks)) as Hle.
  set (f := length (filter_chunk cfg (concat chunks))) in *.
  set (t := length (concat chunks)) in *.
  split; [|split]; case_bool_decide as Ht; try done.
  - assert (0 <= inject_Z (Z.of_nat f) / inject_Z (Z.of_nat t))%Q as H0.
    { apply Qle_shift_div_l; [rewrite <-(Zlt_Qlt 0); lia|].
      rewrite Qmult_0_l, <-(Zle_Qle 0). lia. }
    apply (Qmult_le_0_compat _ 100%Q H0). done.
  - assert (inject_Z (Z.of_nat f) / inject_Z (Z.of_nat t) <= 1)%Q as H1.
    { apply Qle_shift_div_r; [rewrite <-(Zlt_Qlt 0); lia|].
      rewrite Qmult_1_l, <-Zle_Qle. lia. }
    apply (Qmult_le_compat_r _ _ 100%Q) in H1; [|done].
    by rewrite Qmult_1_l in H1.
  - intros Hnil. subst t. rewrite Hnil in Ht. simpl in Ht. lia.
Qed.

Lemma retention_ratio_is_percentage_witness :
  retention_ratio (run_loop default_config [[]; []]) = 0%Q.
Proof.
  exact (proj2 (proj2 (retention_ratio_is_percentage default_config [[]; []])) eq_refl).
Defined.

End FilterRun.

Section FilterOutput.
Import Filter.

Lemma coerce_row_idemp r : coerce_row (coerce_row r) = coerce_row r.
Proof. unfold coerce_row. simpl. by rewrite !to_numeric_idemp. Qed.

Lemma elem_of_filter_chunk cfg chunk r :
  r ∈ filter_chunk cfg chunk →
  ∃ r0, r0 ∈ chunk ∧ passes_all cfg r0 = true ∧ r = coerce_row r0.
Proof.
  rewrite filter_chunk_spec. unfold coerce_numeric.
  intros (r0 & -> & Hin)%list_elem_of_fmap.
  apply list_elem_of_In, filter_In in Hin as [Hin Hp].
  exists r0. by rewrite list_elem_of_In.
Qed.

(** X3. Every row of the filtered table itself meets the filter: its
    scientific name and taxon key are present, its basis of record is
    allowed, its coordinate uncertainty is null or below 1000, it lies
    within every configured bound, and its numeric columns hold no
    unparsed text. *)
Theorem filtered_rows_meet_filter (cfg : config) (chunks : list (list row)) (r : row) :
  r ∈ concat (filtered_data (run_loop cfg chunks)) →
  is_Some (scientificName r) ∧ is_Some (taxonKey r)
  ∧ isin_allowed (basisOfRecord r) = true
  ∧ uncertainty_below_threshold r = true
  ∧ optional_ok cfg r = true
  ∧ coerce_row r = r.
Proof.
  destruct (run_loop_closed_form cfg chunks) as (-> & _).
  intros (r0 & _ & Hp & ->)%elem_of_filter_chunk.
  unfold passes_all, mandatory_ok, critical_present in Hp.
  rewrite !andb_true_iff, !bool_decide_eq_true in Hp.
  destruct Hp as [[[[[[Hn Hk] _] _] Hb] Hu] Ho].
  repeat split; try done.
  - unfold uncertainty_below_threshold in *. simpl. by rewrite to_numeric_idemp.
  - unfold optional_ok in *. simpl. by rewrite !bound_ok_to_numeric.
  - apply coerce_row_idemp.
Qed.

Lemma filtered_rows_meet_filter_witness :
  optional_ok tight_config (coerce_row (sample_row 37%Q 2005%Z)) = true.
Proof.
  refine (proj1 (proj2 (proj2 (proj2 (proj2
    (filtered_rows_meet_filter tight_config [sample_chunk]
       (coerce_row (sample_row 37%Q 2005%Z)) _)))))).
  vm_compute. left.
Defined.

(** X4. A record whose latitude is unparsable text counts as present for
    the non-null test made before the numeric conversion: when it passes
    the filter (which requires that no latitude bound is configured) it
    is written with a null latitude, and filtering the filtered table
    again would drop it. *)
Theorem unparsable_latitude_kept_as_null (cfg : config) (r : row) (s : string) :
  decimalLatitude r = Text s →
  passes_all cfg r = true →
  LAT_MIN cfg = None ∧ LAT_MAX cfg = None
  ∧ filter_chunk cfg [r] = [coerce_row r]
  ∧ decimalLatitude (coerce_row r) = NA
  ∧ filter_chunk cfg (filter_chunk cfg [r]) = [].
Proof.
  intros Hlat Hp.
  assert (Hone : filter_chunk cfg [r] = [coerce_row r]).
  { rewrite filter_chunk_spec. simpl. by rewrite Hp. }
  assert (Hbounds : LAT_MIN cfg = None ∧ LAT_MAX cfg = None).
  { unfold passes_all, optional_ok, bound_ok in Hp.
    rewrite !andb_true_iff in Hp.
    destruct Hp as [_ [[[[[H1 H2] _] _] _] _]]. rewrite Hlat in H1, H2.
    by destruct (LAT_MIN cfg), (LAT_MAX cfg). }
  destruct Hbounds as [Hmin Hmax]. repeat split; try done.
  - simpl. by rewrite Hlat.
  - rewrite Hone, filter_chunk_spec. simpl.
    replace (passes_all cfg (coerce_row r)) with false; [done|].
    unfold passes_all, mandatory_ok, critical_present. simpl. rewrite Hlat. simpl.
    by rewrite andb_false_r.
Qed.

Lemma unparsable_latitude_kept_as_null_witness :
  filter_chunk default_config [text_latitude_row] = [coerce_row text_latitude_row]
  ∧ filter_chunk default_config (filter_chunk default_config [text_latitude_row]) = [].
Proof.
  destruct (unparsable_latitude_kept_as_null default_config text_latitude_row "abc"
              eq_refl eq_refl) as (_ & _ & H1 & _ & H2).
  exact (conj H1 H2).
Defined.

End FilterOutput.

Section FilterCounters.
Import Filter.

Lemma counter_update_lookup `{Countable K} (c : gmap K nat) (xs : list K) (k : K) :
  default 0 (counter_update c xs !! k)
  = default 0 (c !! k) + length (List.filter (λ x, bool_decide (x = k)) xs).
Proof.
  unfold counter_update. revert c.
  induction xs as [|x xs IH]; intros c; simpl; [lia|].
  rewrite IH. unfold counter_incr. case_bool_decide as Hx.
  - subst x. rewrite lookup_insert_eq. simpl. lia.
  - by rewrite lookup_insert_ne.
Qed.

Lemma counter_update_nil `{Countable K} (c : gmap K nat) : counter_update c [] = c.
Proof. done. Qed.

Lemma counter_update_app `{Countable K} (c : gmap K nat) (xs ys : list K) :
  counter_update c (xs ++ ys) = counter_update (counter_update c xs) ys.
Proof. apply foldl_app. Qed.

(** The guard [if not filtered_chunk.empty] changes nothing: updating with
    the values of an empty chunk is the identity. *)
Lemma guarded_update `{Countable K} {B} (c : gmap K nat) (col : list B → list K)
    (fc : list B) :
  col [] = [] →
  (if negb (bool_decide (fc = [])) then counter_update c (col fc) else c)
  = counter_update c (col fc).
Proof. intros Hnil. case_bool_decide as Hfc; simpl; [by rewrite Hfc, Hnil | done]. Qed.

Ltac loop_counter :=
  let st := fresh "st" in
  let IH := fresh "IH" in
  intros st; revert st;
  match goal with
  | |- ∀ st, _ (foldl _ st ?chunks) = _ =>
      induction chunks as [|c chunks IH]; intros st; simpl;
      [ done
      | rewrite IH; simpl;
        first [rewrite map_app | unfold dropna_col; rewrite omap_app];
        rewrite counter_update_app; f_equal;
        by apply (guarded_update _ _ (filter_chunk _ c)) ]
  end.

Lemma species_counter_loop cfg chunks : ∀ st,
  species_counter (foldl (process_chunk cfg) st chunks)
  = counter_update (species_counter st)
      (map scientificName (concat (map (filter_chunk cfg) chunks))).
Proof. loop_counter. Qed.

Lemma taxon_counter_loop cfg chunks : ∀ st,
  taxon_counter (foldl (process_chunk cfg) st chunks)
  = counter_update (taxon_counter st)
      (map taxonKey (concat (map (filter_chunk cfg) chunks))).
Proof. loop_counter. Qed.

Lemma country_counter_loop cfg chunks : ∀ st,
  country_counter (foldl (process_chunk cfg) st chunks)
  = counter_update (country_counter st)
      (dropna_col countryCode (concat (map (filter_chunk cfg) chunks))).
Proof. loop_counter. Qed.

Lemma basis_counter_loop cfg chunks : ∀ st,
  basis_counter (foldl (process_chunk cfg) st chunks)
  = counter_update (basis_counter st)
      (dropna_col basisOfRecord (concat (map (filter_chunk cfg) chunks))).
Proof. loop_counter. Qed.

Lemma year_counter_loop cfg chunks : ∀ st,
  year_counter (foldl (process_chunk cfg) st chunks)
  = counter_update (year_counter st)
      (dropna_col (λ r, cell_value (year r)) (concat (map (filter_chunk cfg) chunks))).
Proof. loop_counter. Qed.

Lemma length_filter_omap {A B} `{EqDecision B} (f : A → option B) (l : list A) (k : B) :
  length (List.filter (λ x, bool_decide (x = k)) (omap f l))
  = length (List.filter (λ r, bool_decide (f r = Some k)) l).
Proof.
  induction l as [|r l IH]; simpl; [done|].
  destruct (f r) as [b|] eqn:Hf; simpl.
  - destruct (decide (b = k)) as [Hb|Hb].
    + rewrite !bool_decide_eq_true_2 by congruence. simpl. f_equal. apply IH.
    + rewrite !bool_decide_eq_false_2 by congruence. apply IH.
  - apply IH.
Qed.

Lemma length_filter_map {A B} `{EqDecision B} (f : A → B) (l : list A) (k : B) :
  length (List.filter (λ x, bool_decide (x = k)) (map f l))
  = length (List.filter (λ r, bool_decide (f r = k)) l).
Proof.
  induction l as [|r l IH]; simpl; [done|].
  case_bool_decide; simpl; by rewrite IH.
Qed.

(** X5. Each counter holds, for every key, exactly the number of rows of
    the filtered table that carry that value (a key that is absent
    standing for 0). *)
Theorem counters_count_filtered_rows (cfg : config) (chunks : list (list row)) :
  (∀ name, default 0 (species_counter (run_loop cfg chunks) !! Some name)
      = length (List.filter (λ r, bool_decide (scientificName r = Some name))
                  (filter_chunk cfg (concat chunks))))
  ∧ (∀ key, default 0 (taxon_counter (run_loop cfg chunks) !! Some key)
      = length (List.filter (λ r, bool_decide (taxonKey r = Some key))
                  (filter_chunk cfg (concat chunks))))
  ∧ (∀ code, default 0 (country_counter (run_loop cfg chunks) !! code)
      = length (List.filter (λ r, bool_decide (countryCode r = Some code))
                  (filter_chunk cfg (concat chunks))))
  ∧ (∀ basis, default 0 (basis_counter (run_loop cfg chunks) !! basis)
      = length (List.filter (λ r, bool_decide (basisOfRecord r = Some basis))
                  (filter_chunk cfg (concat chunks))))
  ∧ (∀ y, default 0 (year_counter (run_loop cfg chunks) !! y)
      = length (List.filter (λ r, bool_decide (cell_value (year r) = Some y))
                  (filter_chunk cfg (concat chunks)))).
Proof.
  unfold run_loop.
  rewrite species_counter_loop, taxon_counter_loop, country_counter_loop,
    basis_counter_loop, year_counter_loop, filter_chunk_concat.
  unfold dropna_col. simpl.
  repeat split; intros k; rewrite counter_update_lookup, lookup_empty; simpl;
    first [apply length_filter_map | apply length_filter_omap].
Qed.

Lemma read_chunk_complete columns cfg st chunk (w : list output) :
  columns_read ⊆ columns →
  "countryCode" ∈ columns ∨ filter_chunk cfg chunk = [] →
  read_chunk columns cfg st chunk w = (w, inr (process_chunk cfg st chunk)).
Proof.
  intros Hread Hcountry. unfold read_chunk, require.
  assert (Hcol : ∀ col, col ∈ columns_read → bool_decide (col ∈ columns) = true).
  { intros col Hcol. apply bool_decide_eq_true_2. by apply Hread. }
  rewrite (Hcol "scientificName"), (Hcol "taxonKey"), (Hcol "decimalLatitude"),
    (Hcol "decimalLongitude"), (Hcol "coordinateUncertaintyInMeters"),
    (Hcol "year"), (Hcol "basisOfRecord")
    by (unfold columns_read; set_solver).
  destruct Hcountry as [Hcountry|Hempty].
  - rewrite (bool_decide_eq_true_2 _ Hcountry). by case_bool_decide.
  - by rewrite (bool_decide_eq_true_2 _ Hempty).
Qed.

Lemma read_chunk_incomplete columns cfg st chunk (w : list output) :
  ¬ (columns_read ⊆ columns)
  ∨ (("countryCode" ∉ columns) ∧ filter_chunk cfg chunk ≠ []) →
  ∃ col, read_chunk columns cfg st chunk w = (w, inl (KeyError col)).
Proof.
  intros Hmiss. unfold read_chunk, require.
  assert (Hcases : ∀ col, col ∈ columns_read → Decision (col ∈ columns))
    by (intros; apply _).
  repeat match goal with
         | |- context [bool_decide (?col ∈ columns)] =>
             lazymatch col with "countryCode" => fail | _ => idtac end;
             let Hin := fresh "Hin" in
             destruct (Hcases col ltac:(unfold columns_read; set_solver)) as [Hin|Hin];
             [rewrite (bool_decide_eq_true_2 _ Hin)
             |rewrite (bool_decide_eq_false_2 _ Hin); by eexists]
         end.
  clear Hcases. destruct Hmiss as [Hread|[Hcountry Hne]].
  - destruct Hread. intros col Hcol. unfold columns_read in Hcol.
    repeat (apply elem_of_cons in Hcol as [->|Hcol]; [done|]).
    by apply elem_of_nil in Hcol.
  - rewrite (bool_decide_eq_false_2 _ Hne), (bool_decide_eq_false_2 _ Hcountry).
    by eexists.
Qed.

Lemma read_chunks_complete columns cfg chunks st (w : list output) :
  columns_read ⊆ columns →
  "countryCode" ∈ columns ∨ filter_chunk cfg (concat chunks) = [] →
  read_chunks columns cfg st chunks w
  = (w, inr (foldl (process_chunk cfg) st chunks)).
Proof.
  intros Hread. revert st. induction chunks as [|chunk rest IH]; intros st Hcountry;
    simpl; [done|].
  assert (Hc : "countryCode" ∈ columns
               ∨ (filter_chunk cfg chunk = [] ∧ filter_chunk cfg (concat rest) = [])).
  { destruct Hcountry as [?|Hempty]; [by left | right].
    simpl in Hempty. rewrite filter_chunk_app in Hempty.
    by apply app_eq_nil in Hempty. }
  unfold mbind, script_bind.
  rewrite read_chunk_complete by (done || destruct Hc as [?|[? _]]; auto).
  apply IH. destruct Hc as [?|[_ ?]]; auto.
Qed.

Lemma read_chunks_incomplete columns cfg chunks st (w : list output) :
  chunks ≠ [] →
  ¬ (columns_read ⊆ columns)
  ∨ (("countryCode" ∉ columns) ∧ filter_chunk cfg (concat chunks) ≠ []) →
  ∃ col, read_chunks columns cfg st chunks w = (w, inl (KeyError col)).
Proof.
  revert st. induction chunks as [|chunk rest IH]; intros st Hne Hmiss; [done|].
  simpl. unfold mbind, script_bind.
  destruct (decide (columns_read ⊆ columns)) as [Hread|Hread].
  - destruct Hmiss as [?|[Hcountry Hdata]]; [done|].
    destruct (decide (filter_chunk cfg chunk = [])) as [Hempty|Hchunk].
    + rewrite read_chunk_complete by auto.
      simpl in Hdata. rewrite filter_chunk_app, Hempty in Hdata. simpl in Hdata.
      apply IH; [|by right]. intros ->. by rewrite filter_chunk_spec in Hdata.
    + destruct (read_chunk_incomplete columns cfg st chunk w) as [col ->]; [by right|].
      by eexists.
  - destruct (read_chunk_incomplete columns cfg st chunk w) as [col ->]; [by left|].
    by eexists.
Qed.

(** On a table that has every column the script keeps, the script is
    [main]. *)
Lemma main_with_all_columns columns cfg chunks :
  COLUMNS_KEEP ⊆ columns →
  run_script (main_with_columns columns cfg chunks) = run_script (main cfg chunks).
Proof.
  intros Hall. unfold main_with_columns, main, run_script.
  unfold mbind at 1. unfold script_bind at 1.
  rewrite read_chunks_complete.
  - change (foldl (process_chunk cfg) init_state chunks) with (run_loop cfg chunks).
    by rewrite (bool_decide_eq_true_2 ("year" ∈ columns))
      by (apply Hall; unfold COLUMNS_KEEP; set_solver).
  - intros col Hcol. apply Hall. unfold columns_read in Hcol.
    unfold COLUMNS_KEEP. set_solver.
  - left. apply Hall. unfold COLUMNS_KEEP. set_solver.
Qed.

(** X6. When at least one chunk is read from a table that has the columns
    the loop reads, and the country column too unless no row survives the
    filter, the script runs to its end with exit status 0: it writes the
    filtered table first, which is the filter of the whole input, and
    everything after it is a report entry or one of the two closing
    messages, never the no-data diagnostic.  When one of those columns is
    absent the script stops on a KeyError with exit status 1 and has
    written nothing. *)
Theorem main_writes_table_once (columns : list string) (cfg : config)
    (chunks : list (list row)) :
  chunks ≠ [] →
  (columns_read ⊆ columns
   ∧ ("countryCode" ∈ columns ∨ filter_chunk cfg (concat chunks) = []) →
   ∃ rest,
     run_script (main_with_columns columns cfg chunks)
     = (FILTERED_FILE (filter_chunk cfg (concat chunks)) :: rest, 0%Z)
     ∧ Report (RRecordsAfterFiltering (length (filter_chunk cfg (concat chunks))))
       ∈ rest
     ∧ ∀ o, o ∈ rest →
         (∃ e, o = Report e)
         ∨ o = Print "Report saved to: REPORT_FILE"
         ∨ o = Print "Filtered dataset saved to: FILTERED_FILE")
  ∧ (¬ (columns_read ⊆ columns)
     ∨ (("countryCode" ∉ columns) ∧ filter_chunk cfg (concat chunks) ≠ []) →
     run_script (main_with_columns columns cfg chunks) = ([], 1%Z)).
Proof.
  intros Hne. split.
  - intros [Hread Hcountry]. unfold main_with_columns, run_script.
    unfold mbind at 1. unfold script_bind at 1.
    rewrite read_chunks_complete by done.
    change (foldl (process_chunk cfg) init_state chunks) with (run_loop cfg chunks).
    destruct (run_loop_closed_form cfg chunks) as (Hdf & _ & Hfr).
    assert (Hdata : filtered_data (run_loop cfg chunks) ≠ []).
    { unfold run_loop. rewrite filtered_data_loop. simpl. by destruct chunks. }
    rewrite (bool_decide_eq_false_2 _ Hdata), Hdf, Hfr.
    rewrite (bool_decide_eq_true_2 ("year" ∈ columns))
      by (apply Hread; unfold columns_read; set_solver).
    eexists. split; [reflexivity|]. split; [set_solver|].
    intros o Ho. set_solver.
  - intros Hmiss. unfold main_with_columns, run_script.
    unfold mbind at 1. unfold script_bind at 1.
    by destruct (read_chunks_incomplete columns cfg chunks init_state [] Hne Hmiss)
      as [col ->].
Qed.

Lemma main_writes_table_once_witness :
  columns_read ⊆ COLUMNS_KEEP
  ∧ (run_script (main_with_columns COLUMNS_KEEP loose_config [sample_chunk])).2 = 0%Z.
Proof.
  assert (Hread : columns_read ⊆ COLUMNS_KEEP).
  { intros col Hcol. unfold columns_read in Hcol.
    repeat (apply elem_of_cons in Hcol as [->|Hcol];
            [apply (bool_decide_unpack _); reflexivity|]).
    by apply elem_of_nil in Hcol. }
  assert (Hcountry : "countryCode" ∈ COLUMNS_KEEP).
  { apply (bool_decide_unpack _). reflexivity. }
  split; [exact Hread|].
  destruct (main_writes_table_once COLUMNS_KEEP loose_config [sample_chunk])
    as [Hrun _]; [discriminate|].
  destruct (Hrun (conj Hread (or_introl Hcountry))) as (rest & -> & _).
  reflexivity.
Defined.

End FilterCounters.

(** ** The download run *)

Section AcquisitionRun.
Import Acquisition.
Context (str_is_numeric : string → bool) (int_of_str : string → option Z)
        (cast_out_of_range : Q → option Z).

Lemma poll_succeeded states n m :
  poll states n = Succeeded m →
  ∃ p, m = n + p ∧ states !! p = Some (Some "SUCCEEDED")
       ∧ ∀ j state, j < p → states !! j = Some state → pending state.
Proof.
  revert n. induction states as [|state rest IH]; intros n; simpl; [done|].
  case_bool_decide as Hs; [|case_bool_decide as Hf; [done|]].
  - intros [= <-]. exists 0. split; [lia|]. split; [by rewrite Hs|]. intros; lia.
  - intros (p & -> & Hp & Hbefore)%IH. exists (S p). split; [lia|]. split; [done|].
    intros [|j] state' Hj; simpl; [by intros [= <-] | intros ?; eapply Hbefore; [|done]; lia].
Qed.

Lemma poll_pending states n :
  Forall pending states →
  poll states n = StillWaiting (n + length states).
Proof.
  revert n. induction states as [|state rest IH]; intros n Hall; simpl.
  - f_equal. lia.
  - apply Forall_cons in Hall as [[Hs Hf] Hrest].
    rewrite !bool_decide_eq_false_2 by done. rewrite IH by done. f_equal. lia.
Qed.

Lemma write_chunks_concat chunks : write_chunks chunks = concat chunks.
Proof.
  unfold write_chunks. induction chunks as [|c chunks IH]; simpl; [done|].
  case_bool_decide as Hc; simpl; rewrite IH; [by rewrite Hc | done].
Qed.

(** X7. The archive is saved only after a request accepted with status
    201 whose job reached SUCCEEDED before any FAILED: the script then
    slept 20 seconds once per earlier status, and the saved file is the
    concatenation of all streamed chunks, the skipped empty ones losing
    nothing. *)
Theorem archive_saved_after_success (w : world) (sleeps : nat) (file : list Byte.byte) :
  main str_is_numeric int_of_str cast_out_of_range w = Saved sleeps file →
  status_code w = 201%Z
  ∧ statuses w !! sleeps = Some (Some "SUCCEEDED")
  ∧ (∀ j state, j < sleeps → statuses w !! j = Some state → pending state)
  ∧ file = concat (iter_content w)
  ∧ ∃ key keys,
      usage_keys str_is_numeric int_of_str cast_out_of_range (species_list w)
      = Some (key :: keys).
Proof.
  unfold main.
  destruct (not_set _ || not_set _ || not_set _); [done|].
  destruct (usage_keys str_is_numeric int_of_str cast_out_of_range (species_list w))
      as [[|key keys]|]; try done.
  case_bool_decide as H420; [done|]. case_bool_decide as H201; [|done]. simpl.
  destruct (poll (statuses w) 0) as [n| |] eqn:Hpoll; try done.
  intros [= <- <-]. apply poll_succeeded in Hpoll as (p & -> & Hp & Hbefore).
  split; [done|]. split; [done|]. split; [done|].
  split; [apply write_chunks_concat | eauto].
Qed.

(** X8. The polling loop has no timeout: after an accepted request, as
    long as every observed status is neither SUCCEEDED nor FAILED
    (including a response without status) the script is still polling,
    having slept once per status, and has neither exited nor downloaded
    anything. *)
Theorem polling_never_gives_up (w : world) (key : Z) (keys : list Z) :
  not_set (GBIF_USER w) || not_set (GBIF_PASSWORD w) || not_set (GBIF_EMAIL w) = false →
  usage_keys str_is_numeric int_of_str cast_out_of_range (species_list w) = Some (key :: keys) →
  status_code w = 201%Z →
  Forall pending (statuses w) →
  main str_is_numeric int_of_str cast_out_of_range w = Polling (length (statuses w)).
Proof.
  intros Hcred Hkeys Hcode Hpending. unfold main.
  rewrite Hcred, Hkeys, Hcode. simpl. by rewrite poll_pending.
Qed.

(** X9. The script ends with exit status 0 without having saved an
    archive in exactly one situation: the credentials are set, the
    species list yields a key, and the download request is answered with
    a status other than 201 and 420.  Every other failure ends with a
    non-zero status or keeps polling. *)
Theorem exit_zero_means_rejected_request (w : world) :
  main str_is_numeric int_of_str cast_out_of_range w = Exit 0
  ↔ not_set (GBIF_USER w) || not_set (GBIF_PASSWORD w) || not_set (GBIF_EMAIL w) = false
    ∧ (∃ key keys,
         usage_keys str_is_numeric int_of_str cast_out_of_range (species_list w)
         = Some (key :: keys))
    ∧ status_code w ≠ 420%Z ∧ status_code w ≠ 201%Z.
Proof.
  unfold main. split.
  - destruct (not_set _ || not_set _ || not_set _); [done|].
    destruct (usage_keys str_is_numeric int_of_str cast_out_of_range (species_list w))
      as [[|key keys]|]; try done.
    case_bool_decide as H420; [done|]. case_bool_decide as H201; simpl.
    + by destruct (poll (statuses w) 0).
    + eauto 10.
  - intros (-> & (key & keys & ->) & H420 & H201).
    by rewrite !bool_decide_eq_false_2 by done.
Qed.

End AcquisitionRun.

Section AcquisitionExamples.
Import Acquisition.

Lemma archive_saved_after_success_witness :
  main digits_is_numeric digits_int_of_str cast_to_min sample_world
  = Saved 2 [Byte.x50; Byte.x4b; Byte.x03; Byte.x04]
  ∧ statuses sample_world !! 2 = Some (Some "SUCCEEDED").
Proof.
  split; [reflexivity|].
  exact (proj1 (proj2 (archive_saved_after_success digits_is_numeric digits_int_of_str cast_to_min
                         sample_world 2
                         [Byte.x50; Byte.x4b; Byte.x03; Byte.x04] eq_refl))).
Defined.

Lemma polling_never_gives_up_witness :
  main digits_is_numeric digits_int_of_str cast_to_min waiting_world = Polling 4.
Proof.
  assert (Hpending : Forall pending (statuses waiting_world)).
  { repeat constructor; discriminate. }
  exact (polling_never_gives_up digits_is_numeric digits_int_of_str cast_to_min
           waiting_world 10%Z [99%Z] eq_refl eq_refl eq_refl
           Hpending).
Defined.

End AcquisitionExamples.

(** ** Site preparation *)

Section SitesFacts.
Import Sites.
Context {polygon : Type} (to_wgs84 : crs_def → polygon → polygon).
Implicit Types (gdf g : geodataframe polygon).

Lemma reproject_crs c gdf :
  crs gdf = Some c → crs (reproject to_wgs84 c gdf) ≫= to_epsg = Some 4326%Z.
Proof.
  intros Hc. unfold reproject. case_bool_decide as H; simpl; [|done].
  by rewrite Hc.
Qed.

Lemma reproject_length c gdf :
  length (Join.sites (table (reproject to_wgs84 c gdf)))
  = length (Join.sites (table gdf)).
Proof. unfold reproject. case_bool_decide; simpl; [done | by rewrite length_map]. Qed.

Lemma reproject_wgs84 c gdf :
  to_epsg c = Some 4326%Z → reproject to_wgs84 c gdf = gdf.
Proof. intros Hc. unfold reproject. by rewrite bool_decide_eq_true_2. Qed.

Lemma gdf_clean_crs gdf : crs (gdf_clean gdf) = crs gdf.
Proof. unfold gdf_clean. by destruct (missing_cols gdf). Qed.

Lemma gdf_clean_length gdf :
  length (Join.sites (table (gdf_clean gdf))) = length (Join.sites (table gdf)).
Proof. unfold gdf_clean. destruct (missing_cols gdf); simpl; [by rewrite length_map | done]. Qed.

(** The column selection of the join script does nothing to a layer the
    preparation script has cleaned. *)
Lemma gdf_natura_join_clean gdf :
  Join.gdf_natura_join (table (gdf_clean gdf)) = table (gdf_clean gdf).
Proof.
  unfold gdf_clean. destruct (missing_cols gdf) as [|m ms] eqn:Hm.
  - unfold Join.gdf_natura_join. simpl.
    replace (Join.missing_natura_cols _) with (@nil string) by done.
    f_equal. rewrite map_map. apply map_ext. intros s. simpl. f_equal.
    apply map_filter_id. by intros i x (_ & Hi)%map_lookup_filter_Some.
  - unfold Join.gdf_natura_join.
    change (Join.missing_natura_cols (table gdf)) with (missing_cols gdf).
    by rewrite Hm.
Qed.

(** X10. The preparation script fails exactly when the layer has no
    reference system; otherwise the layer it saves is in EPSG:4326, holds
    as many sites as the input, and its geometries are untouched when the
    input was in EPSG:4326 already. *)
Theorem prepare_yields_wgs84 gdf :
  (prepare to_wgs84 gdf = CrsUndefined ↔ crs gdf = None)
  ∧ ∀ g, prepare to_wgs84 gdf = Ready g →
      crs g ≫= to_epsg = Some 4326%Z
      ∧ length (Join.sites (table g)) = length (Join.sites (table gdf))
      ∧ (crs gdf ≫= to_epsg = Some 4326%Z →
         map Join.geometry (Join.sites (table g))
         = map Join.geometry (Join.sites (table gdf))).
Proof.
  unfold prepare. destruct (crs gdf) as [c|] eqn:Hc; (split; [done|]); [|done].
  intros g [= <-]. rewrite gdf_clean_crs, gdf_clean_length, reproject_length.
  split; [by apply reproject_crs|]. split; [done|].
  simpl. intros H4326. rewrite (reproject_wgs84 c gdf H4326).
  unfold gdf_clean. destruct (missing_cols gdf); simpl; [|done].
  rewrite map_map. by apply map_ext.
Qed.

(** X11. The two scripts compose: the layer checks of the join script
    (reference system, reprojection, column selection) leave a layer
    saved by the preparation script exactly as it is. *)
Theorem load_for_join_of_prepared gdf g :
  prepare to_wgs84 gdf = Ready g → load_for_join to_wgs84 g = Ready g.
Proof.
  intros Hprep.
  unfold prepare in Hprep. destruct (crs gdf) as [c|] eqn:Hc; [|done].
  injection Hprep as <-. unfold load_for_join.
  pose proof (reproject_crs c gdf Hc) as Hcrs. rewrite <-gdf_clean_crs in Hcrs.
  destruct (crs (gdf_clean (reproject to_wgs84 c gdf))) as [c'|] eqn:Hc'; [|done].
  simpl in Hcrs. rewrite (reproject_wgs84 c' _ Hcrs), gdf_natura_join_clean, Hc'.
  f_equal. rewrite <-Hc'. by destruct (gdf_clean (reproject to_wgs84 c gdf)).
Qed.

End SitesFacts.

Lemma prepare_yields_wgs84_witness :
  ∃ g, Sites.prepare Sites.shift_rect Sites.sample_gdf = Sites.Ready g
       ∧ Sites.crs g ≫= Sites.to_epsg = Some 4326%Z.
Proof.
  eexists. split; [reflexivity|].
  exact (proj1 (proj2 (prepare_yields_wgs84 Sites.shift_rect Sites.sample_gdf)
                  _ eq_refl)).
Defined.

Lemma load_for_join_of_prepared_witness :
  ∃ g, Sites.prepare Sites.shift_rect Sites.sample_gdf = Sites.Ready g
       ∧ Sites.load_for_join Sites.shift_rect g = Sites.Ready g.
Proof.
  eexists. split; [reflexivity|].
  exact (load_for_join_of_prepared Sites.shift_rect Sites.sample_gdf _ eq_refl).
Defined.

(** ** Spatial validation *)

Section ValidateFacts.
Import Validate.

(** A coordinate that is present and within the closed range. *)
Lemma between_spec lo hi x :
  between lo hi x = true ↔ ∃ v, x = Some v ∧ (lo <= v)%Q ∧ (v <= hi)%Q.
Proof.
  unfold between. destruct x as [v|].
  - rewrite andb_true_iff, !Qle_bool_iff. naive_solver.
  - naive_solver.
Qed.

Lemma range_ok_no_missing col lo hi df :
  range_ok col lo hi df = true → missing col df = 0.
Proof.
  unfold range_ok, missing. induction df as [|r df IH]; simpl; [done|].
  rewrite andb_true_iff. intros [Hr Hdf].
  apply between_spec in Hr as (v & -> & _). simpl. by apply IH.
Qed.

Lemma main_log df :
  COL_LONGITUDE ∈ columns df → COL_LATITUDE ∈ columns df →
  run_script (main df)
  = ([ ValidationStarted (length (rows df));
       MissingValues (missing decimalLongitude (rows df))
                     (missing decimalLatitude (rows df));
       RangeValidation (range_ok decimalLatitude (-90)%Q 90%Q (rows df))
                       (range_ok decimalLongitude (-180)%Q 180%Q (rows df));
       (if bool_decide (missing decimalLongitude (rows df) = 0)
           && bool_decide (missing decimalLatitude (rows df) = 0)
        then NoMissingCoordinates else MissingCoordinatesDetected);
       (if range_ok decimalLatitude (-90)%Q 90%Q (rows df)
           && range_ok decimalLongitude (-180)%Q 180%Q (rows df)
        then CoordinateRangesValid else InvalidCoordinatesDetected);
       StructurallyReady; ValidationCompleted ], 0%Z).
Proof.
  intros Hlon Hlat. unfold main, column.
  rewrite (bool_decide_eq_true_2 _ Hlon), (bool_decide_eq_true_2 _ Hlat).
  unfold run_script, write, mbind, mret, script_bind, script_ret. simpl.
  destruct (_ && _), (_ && _); reflexivity.
Qed.

(** X12. When both coordinate columns exist the validator runs to its end
    (exit status 0) and reports valid coordinate ranges exactly when every
    row has both coordinates, latitude within [-90, 90] and longitude
    within [-180, 180]; a missing coordinate counts as out of range, so
    the log never reports valid ranges together with missing values. *)
Theorem validation_verdicts (df : frame) :
  COL_LONGITUDE ∈ columns df → COL_LATITUDE ∈ columns df →
  (run_script (main df)).2 = 0%Z
  ∧ (CoordinateRangesValid ∈ (run_script (main df)).1
     ↔ ∀ r, r ∈ rows df →
         ∃ x y, decimalLongitude r = Some x ∧ decimalLatitude r = Some y
                ∧ (-180 <= x)%Q ∧ (x <= 180)%Q ∧ (-90 <= y)%Q ∧ (y <= 90)%Q)
  ∧ (CoordinateRangesValid ∈ (run_script (main df)).1 →
     NoMissingCoordinates ∈ (run_script (main df)).1
     ∧ MissingCoordinatesDetected ∉ (run_script (main df)).1).
Proof.
  intros Hlon Hlat. rewrite (main_log df Hlon Hlat). simpl.
  set (lat_ok := range_ok decimalLatitude (-90)%Q 90%Q (rows df)).
  set (lon_ok := range_ok decimalLongitude (-180)%Q 180%Q (rows df)).
  assert (Hvalid : lat_ok && lon_ok = true
                   ↔ ∀ r, r ∈ rows df →
                       ∃ x y, decimalLongitude r = Some x ∧ decimalLatitude r = Some y
                              ∧ (-180 <= x)%Q ∧ (x <= 180)%Q
                              ∧ (-90 <= y)%Q ∧ (y <= 90)%Q).
  { subst lat_ok lon_ok. unfold range_ok.
    rewrite andb_true_iff, !forallb_forall. split.
    - intros [Hla Hlo] r Hr%list_elem_of_In.
      pose proof (proj1 (between_spec _ _ _) (Hla r Hr)) as (y & Hy & ? & ?).
      pose proof (proj1 (between_spec _ _ _) (Hlo r Hr)) as (x & Hx & ? & ?).
      by exists x, y.
    - intros Hall. split; intros r Hr%list_elem_of_In;
        apply between_spec; destruct (Hall r Hr); naive_solver. }
  assert (Hmissing : lat_ok && lon_ok = true →
                     missing decimalLongitude (rows df) = 0
                     ∧ missing decimalLatitude (rows df) = 0).
  { rewrite andb_true_iff. intros [Hla Hlo].
    eauto using range_ok_no_missing. }
  split; [done|]. destruct (lat_ok && lon_ok) eqn:Hok.
  - destruct (Hmissing eq_refl) as [-> ->]. simpl.
    split; [split; [intros _; by apply Hvalid | intros _]|intros _; split].
    + do 4 right. left.
    + do 3 right. left.
    + rewrite !elem_of_cons, elem_of_nil. naive_solver.
  - assert (Hnot : CoordinateRangesValid
             ∉ [ValidationStarted (length (rows df));
                MissingValues (missing decimalLongitude (rows df))
                  (missing decimalLatitude (rows df));
                RangeValidation lat_ok lon_ok;
                (if bool_decide (missing decimalLongitude (rows df) = 0)
                    && bool_decide (missing decimalLatitude (rows df) = 0)
                 then NoMissingCoordinates else MissingCoordinatesDetected);
                InvalidCoordinatesDetected; StructurallyReady; ValidationCompleted]).
    { intros Hin.
      repeat (apply elem_of_cons in Hin as [Hin|Hin];
              [first [discriminate Hin
                     | destruct (bool_decide _ && bool_decide _); discriminate Hin]|]).
      by apply elem_of_nil in Hin. }
    split; [split; [done | intros Hall; apply Hvalid in Hall; done] | done].
Qed.

Lemma validation_verdicts_witness :
  CoordinateRangesValid
    ∈ (run_script (main (read_filtered
         (Filter.filter_chunk greece_config Filter.sample_chunk)))).1.
Proof.
  apply (validation_verdicts
           (read_filtered (Filter.filter_chunk greece_config Filter.sample_chunk)));
    [vm_compute; set_solver | vm_compute; set_solver |].
  intros r Hr. vm_compute in Hr.
  repeat (apply elem_of_cons in Hr as [->|Hr]; [eexists _, _; repeat split; done|]).
  by apply elem_of_nil in Hr.
Defined.

End ValidateFacts.

Section ValidateFiltered.
Import Validate.

Lemma bound_ok_lower_value (a : Q) (c : cell Q) :
  Filter.bound_ok Filter.Qge_bool (Some a) c = true →
  ∃ v, cell_value (to_numeric c) = Some v ∧ (a <= v)%Q.
Proof.
  unfold Filter.bound_ok, Filter.Qge_bool. destruct c as [|v|t]; simpl; try done.
  rewrite Qle_bool_iff. eauto.
Qed.

Lemma bound_ok_upper_value (b : Q) (c : cell Q) :
  Filter.bound_ok Qle_bool (Some b) c = true →
  ∃ v, cell_value (to_numeric c) = Some v ∧ (v <= b)%Q.
Proof.
  unfold Filter.bound_ok. destruct c as [|v|t]; simpl; try done.
  rewrite Qle_bool_iff. eauto.
Qed.

(** X13. The filter and the validator compose: when the filter ran with
    all four spatial bounds configured inside the valid coordinate
    ranges, the validator reports valid ranges and no missing coordinate
    for the filtered table, whatever the raw input was. *)
Theorem bounded_filter_output_validates (cfg : Filter.config)
    (chunks : list (list Filter.row)) (lat_min lat_max lon_min lon_max : Q) :
  Filter.LAT_MIN cfg = Some lat_min → Filter.LAT_MAX cfg = Some lat_max →
  Filter.LON_MIN cfg = Some lon_min → Filter.LON_MAX cfg = Some lon_max →
  (-90 <= lat_min)%Q → (lat_max <= 90)%Q →
  (-180 <= lon_min)%Q → (lon_max <= 180)%Q →
  CoordinateRangesValid
    ∈ (run_script (main (read_filtered
         (concat (Filter.filtered_data (Filter.run_loop cfg chunks)))))).1
  ∧ NoMissingCoordinates
    ∈ (run_script (main (read_filtered
         (concat (Filter.filtered_data (Filter.run_loop cfg chunks)))))).1.
Proof.
  intros Hla Hlb Hlc Hld Ha Hb Hc Hd.
  set (df := read_filtered _).
  assert (Hlon : COL_LONGITUDE ∈ columns df) by (simpl; set_solver).
  assert (Hlat : COL_LATITUDE ∈ columns df) by (simpl; set_solver).
  assert (Hrows : ∀ r, r ∈ rows df →
            between (-90) 90 (decimalLatitude r) = true
            ∧ between (-180) 180 (decimalLongitude r) = true).
  { subst df. simpl. intros r (r' & -> & Hr')%list_elem_of_fmap.
    destruct (run_loop_closed_form cfg chunks) as (Heq & _). rewrite Heq in Hr'.
    apply elem_of_filter_chunk in Hr' as (r0 & _ & Hp & ->).
    unfold Filter.passes_all, Filter.optional_ok in Hp.
    rewrite !andb_true_iff, Hla, Hlb, Hlc, Hld in Hp.
    destruct Hp as [_ [[[[[B1 B2] B3] B4] _] _]].
    apply bound_ok_lower_value in B1 as (y & Hy & Hy1).
    apply bound_ok_upper_value in B2 as (y' & Hy' & Hy2).
    apply bound_ok_lower_value in B3 as (x & Hx & Hx1).
    apply bound_ok_upper_value in B4 as (x' & Hx' & Hx2).
    simpl. rewrite Hy in Hy'. injection Hy' as <-.
    rewrite Hx in Hx'. injection Hx' as <-.
    rewrite Hx, Hy. split; apply between_spec; eexists; split; [done| |done|];
      split; eapply Qle_trans; done. }
  assert (Hlat_ok : range_ok decimalLatitude (-90) 90 (rows df) = true).
  { apply forallb_forall. intros r Hr%list_elem_of_In. by apply Hrows. }
  assert (Hlon_ok : range_ok decimalLongitude (-180) 180 (rows df) = true).
  { apply forallb_forall. intros r Hr%list_elem_of_In. by apply Hrows. }
  rewrite (main_log df Hlon Hlat), Hlat_ok, Hlon_ok.
  rewrite (range_ok_no_missing _ _ _ _ Hlat_ok), (range_ok_no_missing _ _ _ _ Hlon_ok).
  simpl. split; [do 4 right; left | do 3 right; left].
Qed.

Lemma bounded_filter_output_validates_witness :
  NoMissingCoordinates
    ∈ (run_script (main (read_filtered
         (concat (Filter.filtered_data
                    (Filter.run_loop greece_config [Filter.sample_chunk])))))).1.
Proof.
  refine (proj2 (bounded_filter_output_validates greece_config [Filter.sample_chunk]
                   34%Q 42%Q 19%Q 29%Q eq_refl eq_refl eq_refl eq_refl _ _ _ _));
    done.
Defined.

End ValidateFiltered.

(** ** Grouping and counting *)

Section Grouping.
Context {A K : Type} `{EqDecision K} (key : A → option K).
Implicit Types (df : list A) (ks : list K).

Lemma sum_list_with_zero ks : sum_list_with (λ _ : K, 0) ks = 0.
Proof. induction ks as [|k ks IH]; simpl; [done | by rewrite IH]. Qed.

Lemma sum_list_with_split (f g h : K → nat) ks :
  (∀ k, f k = g k + h k) →
  sum_list_with f ks = sum_list_with g ks + sum_list_with h ks.
Proof.
  intros Hsplit. induction ks as [|k ks IH]; simpl; [done|].
  rewrite IH, Hsplit. lia.
Qed.

Lemma sum_indicator_absent ks (k0 : K) :
  k0 ∉ ks →
  sum_list_with (λ k, if bool_decide (Some k0 = Some k) then 1 else 0) ks = 0.
Proof.
  induction ks as [|k ks IH]; simpl; [done|]. intros Hnot.
  rewrite bool_decide_eq_false_2, IH; [done | set_solver |].
  intros [= ->]. apply Hnot. left.
Qed.

Lemma sum_indicator_present ks (k0 : K) :
  NoDup ks → k0 ∈ ks →
  sum_list_with (λ k, if bool_decide (Some k0 = Some k) then 1 else 0) ks = 1.
Proof.
  induction ks as [|k ks IH]; simpl; intros Hnd Hin; [by apply elem_of_nil in Hin|].
  apply NoDup_cons in Hnd as [Hk Hnd]. destruct (decide (k0 = k)) as [->|Hne].
  - rewrite bool_decide_eq_true_2 by done. by rewrite sum_indicator_absent.
  - rewrite bool_decide_eq_false_2 by congruence. apply IH; [done|].
    apply elem_of_cons in Hin as [?|?]; done.
Qed.

(** The group sizes over a duplicate-free list of keys that covers the
    table add up to the rows with a key. *)
Lemma sum_counts df ks :
  NoDup ks → (∀ k, k ∈ omap key df → k ∈ ks) →
  sum_list_with (λ k, length (List.filter (λ x, bool_decide (key x = Some k)) df)) ks = length (omap key df).
Proof.
  intros Hnd. induction df as [|r df IH]; intros Hcover.
  - simpl. apply sum_list_with_zero.
  - assert (Hstep : sum_list_with (λ k, length (List.filter (λ x, bool_decide (key x = Some k)) (r :: df))) ks
              = sum_list_with (λ k, if bool_decide (key r = Some k) then 1 else 0) ks
                + sum_list_with (λ k, length (List.filter (λ x, bool_decide (key x = Some k)) df)) ks).
    { apply sum_list_with_split. intros k. simpl.
      by destruct (bool_decide (key r = Some k)). }
    etrans; [exact Hstep|]. simpl in *. destruct (key r) as [k0|] eqn:Hr.
    + rewrite sum_indicator_present, IH; [done | | done |].
      * intros k Hk. apply Hcover. by right.
      * apply Hcover. left.
    + rewrite IH by done. by rewrite sum_list_with_zero.
Qed.

Lemma count_pos df k : 0 < length (List.filter (λ x, bool_decide (key x = Some k)) df) ↔ k ∈ omap key df.
Proof.
  rewrite list_elem_of_omap. induction df as [|r df IH]; simpl.
  - split; [lia | by intros (? & ?%elem_of_nil & _)].
  - case_bool_decide as Hr; simpl.
    + split; [intros _; exists r; split; [left | done] | lia].
    + rewrite IH. split.
      * intros (x & Hx & Hk). exists x. split; [by right | done].
      * intros (x & [->|Hx]%elem_of_cons & Hk); [done | eauto].
Qed.

End Grouping.

(** ** Summary tables *)

Section SummaryFacts.
Import Summary.

#[local] Instance more_frequent_total {K} : Total (@more_frequent K).
Proof. intros a b. unfold more_frequent. lia. Qed.

#[local] Instance earlier_total : Total earlier.
Proof. intros a b. unfold earlier. lia. Qed.

Lemma sum_list_snd_Permutation {K} (t t' : list (K * nat)) :
  t ≡ₚ t' → sum_list (map snd t) = sum_list (map snd t').
Proof. induction 1; simpl in *; lia. Qed.

Lemma counts_of_Permutation `{EqDecision K} (col : row → option K) df
    (t t' : list (K * nat)) :
  t ≡ₚ t' → counts_of col df t → counts_of col df t'.
Proof.
  intros Hperm (Hnd & Hin & Hsum). split; [|split].
  - change (NoDup (fst <$> t')). change (NoDup (fst <$> t)) in Hnd.
    by rewrite <-Hperm.
  - intros k n. rewrite <-Hin. by rewrite Hperm.
  - by rewrite <-(sum_list_snd_Permutation t t').
Qed.

Lemma group_sizes_counts `{EqDecision K} (sort : list K → list K)
    (col : row → option K) df :
  (∀ l, sort l ≡ₚ l) → counts_of col df (group_sizes sort col df).
Proof.
  intros Hsort. unfold group_sizes.
  set (keys := sort (unique (omap col df))).
  assert (Hnd : NoDup keys).
  { subst keys. rewrite Hsort. apply NoDup_unique. }
  assert (Hkeys : ∀ k, k ∈ keys ↔ k ∈ omap col df).
  { intros k. subst keys. by rewrite Hsort, elem_of_unique. }
  split; [|split].
  - rewrite map_map. simpl. by rewrite map_id.
  - intros k n. rewrite list_elem_of_fmap. split.
    + intros (k' & [= -> ->] & Hk'). split; [|done].
      apply (proj2 (count_pos col df k')), (proj1 (Hkeys k')), Hk'.
    + intros [Hpos ->]. exists k. split; [done|].
      apply (proj2 (Hkeys k)), (proj1 (count_pos col df k)), Hpos.
  - rewrite <-(sum_counts col df keys Hnd); [|by intros k ?; apply Hkeys].
    clear. induction keys as [|k keys IH]; simpl; [done | by rewrite IH].
Qed.

(** X14. Each summary table lists every value of its column once, with the
    positive number of rows that carry it, and the counts add up to the
    rows where the column is not null.  The species, country and basis
    tables are in descending order of count, the year table in ascending
    order of year. *)
Theorem summaries_count_rows (df : list row) :
  counts_of scientificName df (species_summary df)
  ∧ Sorted more_frequent (species_summary df)
  ∧ counts_of countryCode df (country_summary df)
  ∧ Sorted more_frequent (country_summary df)
  ∧ counts_of year df (year_summary df)
  ∧ Sorted earlier (year_summary df)
  ∧ counts_of basisOfRecord df (basis_summary df)
  ∧ Sorted more_frequent (basis_summary df).
Proof.
  unfold species_summary, country_summary, year_summary, basis_summary,
    by_occurrences_desc, by_year.
  split_and!;
    first [ apply Sorted_merge_sort; apply _
          | eapply counts_of_Permutation;
            [symmetry; apply merge_sort_Permutation
            | apply group_sizes_counts; intros l; apply merge_sort_Permutation] ].
Qed.

End SummaryFacts.

Section SummaryOfFilter.

Lemma count_pos_list `{EqDecision K} (xs : list K) (k : K) :
  0 < length (List.filter (λ x, bool_decide (x = k)) xs) ↔ k ∈ xs.
Proof.
  induction xs as [|x xs IH]; simpl.
  - split; [lia | by intros ?%elem_of_nil].
  - case_bool_decide as Hx; simpl.
    + subst x. split; [intros _; left | lia].
    + rewrite IH. split; [by right | by intros [->|?]%elem_of_cons].
Qed.

Lemma counter_lookup_Some `{Countable K} (xs : list K) (k : K) (n : nat) :
  counter_update ∅ xs !! k = Some n
  ↔ 0 < n ∧ n = length (List.filter (λ x, bool_decide (x = k)) xs).
Proof.
  pose proof (counter_update_lookup ∅ xs k) as Hval.
  rewrite lookup_empty in Hval. simpl in Hval.
  assert (Hdom : is_Some (counter_update ∅ xs !! k) ↔ k ∈ xs).
  { rewrite <-elem_of_dom, dom_counter_update, dom_empty_L. set_solver. }
  split.
  - intros Hk. rewrite Hk in Hval. simpl in Hval. split; [|done].
    rewrite Hval. apply (proj2 (count_pos_list xs k)), (proj1 Hdom). by exists n.
  - intros [Hpos ->]. apply (proj1 (count_pos_list xs k)), (proj2 Hdom) in Hpos.
    destruct Hpos as [m Hm]. rewrite Hm in Hval |- *. simpl in Hval. by rewrite Hval.
Qed.

Lemma summary_count_read_filtered `{EqDecision K} (col : Summary.row → option K)
    (col' : Filter.row → option K) (filtered_df : list Filter.row) (k : K) :
  (∀ r, col (Summary.Build_row (Filter.scientificName r) (Filter.countryCode r)
               (cell_value (Filter.year r)) (Filter.basisOfRecord r)) = col' r) →
  length (List.filter (λ r, bool_decide (col r = Some k))
            (Summary.read_filtered filtered_df))
  = length (List.filter (λ r, bool_decide (col' r = Some k)) filtered_df).
Proof.
  intros Hcol. unfold Summary.read_filtered.
  rewrite filter_map_comm, length_map. f_equal. apply filter_ext.
  intros r. by rewrite Hcol.
Qed.

Lemma by_occurrences_counts (col : Summary.row → option string) df :
  Summary.counts_of col df
    (Summary.by_occurrences_desc (Summary.group_sizes (merge_sort String.le) col df)).
Proof.
  eapply counts_of_Permutation; [symmetry; apply merge_sort_Permutation|].
  apply group_sizes_counts. intros l. apply merge_sort_Permutation.
Qed.

Lemma by_year_counts df :
  Summary.counts_of Summary.year df (Summary.year_summary df).
Proof.
  eapply counts_of_Permutation; [symmetry; apply merge_sort_Permutation|].
  apply group_sizes_counts. intros l. apply merge_sort_Permutation.
Qed.

(** X15. The summary tables computed from the filtered table agree with
    the counters the filter stage kept while streaming: a value is listed
    with a count in the species, country, year or basis summary exactly
    when the corresponding counter holds that count for it. *)
Theorem summaries_agree_with_counters (cfg : Filter.config)
    (chunks : list (list Filter.row)) :
  (∀ name n,
     (name, n) ∈ Summary.species_summary (Summary.read_filtered
                   (concat (Filter.filtered_data (Filter.run_loop cfg chunks))))
     ↔ Filter.species_counter (Filter.run_loop cfg chunks) !! Some name = Some n)
  ∧ (∀ code n,
     (code, n) ∈ Summary.country_summary (Summary.read_filtered
                   (concat (Filter.filtered_data (Filter.run_loop cfg chunks))))
     ↔ Filter.country_counter (Filter.run_loop cfg chunks) !! code = Some n)
  ∧ (∀ y n,
     (y, n) ∈ Summary.year_summary (Summary.read_filtered
                (concat (Filter.filtered_data (Filter.run_loop cfg chunks))))
     ↔ Filter.year_counter (Filter.run_loop cfg chunks) !! y = Some n)
  ∧ (∀ basis n,
     (basis, n) ∈ Summary.basis_summary (Summary.read_filtered
                    (concat (Filter.filtered_data (Filter.run_loop cfg chunks))))
     ↔ Filter.basis_counter (Filter.run_loop cfg chunks) !! basis = Some n).
Proof.
  destruct (run_loop_closed_form cfg chunks) as (-> & _).
  unfold Filter.run_loop.
  rewrite species_counter_loop, country_counter_loop, year_counter_loop,
    basis_counter_loop, filter_chunk_concat. simpl.
  set (fdf := Filter.filter_chunk cfg (concat chunks)).
  unfold dropna_col. split_and!; intros k n.
  - destruct (by_occurrences_counts Summary.scientificName (Summary.read_filtered fdf))
      as (_ & -> & _).
    rewrite counter_lookup_Some, length_filter_map.
    by rewrite (summary_count_read_filtered _ Filter.scientificName).
  - destruct (by_occurrences_counts Summary.countryCode (Summary.read_filtered fdf))
      as (_ & -> & _).
    rewrite counter_lookup_Some, length_filter_omap.
    by rewrite (summary_count_read_filtered _ Filter.countryCode).
  - destruct (by_year_counts (Summary.read_filtered fdf)) as (_ & -> & _).
    rewrite counter_lookup_Some, length_filter_omap.
    by rewrite (summary_count_read_filtered _ (λ r, cell_value (Filter.year r))).
  - destruct (by_occurrences_counts Summary.basisOfRecord (Summary.read_filtered fdf))
      as (_ & -> & _).
    rewrite counter_lookup_Some, length_filter_omap.
    by rewrite (summary_count_read_filtered _ Filter.basisOfRecord).
Qed.

End SummaryOfFilter.

(** ** Size of the joined table and the match report *)

Section JoinReport.
Import Join.
Context {polygon : Type} (within : Q * Q → polygon → bool).







(** X17. Against a layer without sites every occurrence comes out exactly
    once, in input order and with null site attributes, and nothing is
    reported as matched; the match ratio of an empty joined table is 0,
    no division taking place. *)
Theorem join_with_empty_layer (left : list Filter.row) (gdf_natura : layer polygon) :
  sites gdf_natura = [] →
  gdf_joined within left gdf_natura
  = imap (λ i r, {| index := i; occurrence := r; index_right := None;
                    site_attrs := ∅ |}) left
  ∧ n_matched (gdf_joined within left gdf_natura) = 0
  ∧ match_ratio (gdf_joined within [] gdf_natura) = 0%Q.
Proof.
  intros Hempty.
  assert (Hright : sites (gdf_natura_join gdf_natura) = []).
  { unfold gdf_natura_join. destruct (missing_natura_cols gdf_natura); simpl;
      by rewrite Hempty. }
  assert (Hjoin : gdf_joined within left gdf_natura
            = imap (λ i r, {| index := i; occurrence := r; index_right := None;
                              site_attrs := ∅ |}) left).
  { unfold gdf_joined, sjoin_left, join_row, matches. rewrite Hright. simpl.
    assert (∀ (f : nat → Filter.row → joined) (l : list Filter.row),
              concat (imap (λ i r, [f i r]) l) = imap f l) as Hsingle.
    { intros f l. revert f. induction l as [|x l IH]; intros f; simpl; [done|].
      f_equal. apply (IH (f ∘ S)). }
    apply Hsingle. }
  split; [done|]. split; [|done].
  rewrite Hjoin. unfold n_matched. rewrite filter_none; [done|].
  intros o (i & r & -> & _)%elem_of_lookup_imap. simpl.
  apply bool_decide_eq_false. rewrite lookup_empty. by intros [? ?].
Qed.

End JoinReport.


Lemma join_with_empty_layer_witness :
  Join.n_matched
    (Join.gdf_joined Join.within_rect Join.sample_points
       {| Join.columns := Join.columns Join.sample_layer; Join.sites := [] |})
  = 0.
Proof.
  exact (proj1 (proj2 (join_with_empty_layer Join.within_rect Join.sample_points
                         {| Join.columns := Join.columns Join.sample_layer;
                            Join.sites := [] |} eq_refl))).
Defined.

(** ** Further properties of the metrics tables *)

Section MetricsTables.
Import Metrics.










(** X19. The site-level and member-state tables are written together or
    not at all.  With occurrences in sites, the basic-metrics script
    writes both and ends with status 0 when the five aggregated columns
    exist, and otherwise stops on a [KeyError] (status 1) before writing
    anything: the branch that would skip only the member-state table is
    never taken. *)
Theorem basic_metrics_all_or_nothing (df : frame) :
  rows (df_in_site df) ≠ [] →
  run_script (Basic.main df)
  = if forallb (has_col df)
         [SITE_NAME_COL; MS_COL; SITETYPE_COL; TAXON_KEY_COL; SPECIES_COL]
    then ([ Basic.SITES_METRICS_CSV
              (Basic.sites_metrics (has_col df YEAR_COL) (rows (df_in_site df)));
            Basic.MS_METRICS_CSV
              (Basic.ms_metrics (has_col df YEAR_COL) (rows (df_in_site df))) ], 0%Z)
    else ([], 1%Z).
Proof.
  intros Hne. unfold Basic.main. rewrite (bool_decide_eq_false_2 _ Hne).
  assert (Hcol : ∀ c, has_col (df_in_site df) c = has_col df c).
  { intros c. unfold df_in_site. by destruct (has_col df SITE_CODE_COL). }
  unfold require. rewrite !Hcol. simpl.
  unfold run_script, raise, write, mbind, mret, script_bind, script_ret.
  destruct (has_col df SITE_NAME_COL), (has_col df MS_COL),
    (has_col df SITETYPE_COL), (has_col df TAXON_KEY_COL), (has_col df SPECIES_COL);
    reflexivity.
Qed.

Lemma basic_metrics_all_or_nothing_witness :
  (run_script (Basic.main sample_frame)).2 = 0%Z.
Proof.
  rewrite (basic_metrics_all_or_nothing sample_frame); [reflexivity | discriminate].
Defined.

(** X20. A table with occurrences in sites and a taxon-key column but
    without the member-state column makes the advanced-metrics script
    stop on a [KeyError] (status 1) before it has written any table. *)
Theorem advanced_metrics_missing_ms (df : frame) :
  rows (df_in_site df) ≠ [] →
  has_col df TAXON_KEY_COL = true →
  has_col df MS_COL = false →
  run_script (Advanced.main df) = ([], 1%Z).
Proof.
  intros Hne Htk Hms. unfold Advanced.main. rewrite (bool_decide_eq_false_2 _ Hne).
  assert (Hcol : ∀ c, has_col (df_in_site df) c = has_col df c).
  { intros c. unfold df_in_site. by destruct (has_col df SITE_CODE_COL). }
  assert (Hsc : has_col df SITE_CODE_COL = true).
  { unfold df_in_site in Hne. by destruct (has_col df SITE_CODE_COL). }
  unfold require. rewrite !Hcol, Htk, Hms, Hsc.
  unfold run_script, raise, write, mbind, mret, script_bind, script_ret.
  by destruct (has_col df SPECIES_COL).
Qed.

Lemma advanced_metrics_missing_ms_witness :
  run_script (Advanced.main
    {| columns := [TAXON_KEY_COL; SPECIES_COL; YEAR_COL; SITE_CODE_COL; SITETYPE_COL];
       rows := rows sample_frame |})
  = ([], 1%Z).
Proof.
  apply advanced_metrics_missing_ms; [discriminate | reflexivity | reflexivity].
Defined.

Lemma nunique_zero_nil `{EqDecision B} (l : list B) : nunique l = 0 → l = [].
Proof.
  unfold nunique. intros Hn. destruct l as [|x l]; [done|].
  assert (Hx : x ∈ unique (x :: l)) by (rewrite elem_of_unique; left).
  destruct (unique (x :: l)); [by apply elem_of_nil in Hx | discriminate Hn].
Qed.

(** X21. A group without any year (all its year cells null) gets null
    temporal columns throughout: null year range, and for a site null
    expected years, missing years and gap fraction, for a taxon null
    temporal span and completeness.  No division by a null or zero span
    ever yields a number. *)
Theorem groups_without_years_are_null (has_year : bool) (df : list row) :
  (∀ s, s ∈ Advanced.sites_gaps df → n_years (Advanced.gap_years s) = 0 →
     year_min (Advanced.gap_years s) = None ∧ year_max (Advanced.gap_years s) = None
     ∧ Advanced.expected_years s = None ∧ Advanced.missing_years s = None
     ∧ Advanced.gap_fraction s = None)
  ∧ (∀ m t, m ∈ Advanced.species_metrics has_year df →
     Advanced.sp_temporal m = Some t → n_years (Advanced.sp_years t) = 0 →
     year_min (Advanced.sp_years t) = None ∧ year_max (Advanced.sp_years t) = None
     ∧ Advanced.temporal_span t = None ∧ Advanced.temporal_completeness t = None).
Proof.
  split.
  - unfold Advanced.sites_gaps. intros s ([k g] & -> & _)%list_elem_of_fmap.
    unfold Advanced.site_gap_of, agg_years, agg_nunique. simpl.
    intros ->%nunique_zero_nil. done.
  - intros m t Hm Ht. destruct (elem_of_species_metrics _ _ _ _ Hm Ht) as (g & ->).
    unfold Advanced.species_temporal_of, agg_years, agg_nunique. simpl.
    intros ->%nunique_zero_nil. done.
Qed.

Lemma groups_without_years_are_null_witness :
  ∃ s, Advanced.sites_gaps [sample_row 5 None (Some "X")] !! 0 = Some s
       ∧ Advanced.gap_fraction s = None.
Proof.
  eexists. split; [vm_compute; reflexivity|].
  refine (proj2 (proj2 (proj2 (proj2
    (proj1 (groups_without_years_are_null true [sample_row 5 None (Some "X")])
       _ _ _))))).
  - apply list_elem_of_lookup. exists 0. vm_compute. reflexivity.
  - reflexivity.
Defined.

End MetricsTables.

Section MetricsAcrossScripts.
Import Metrics.

(** X22. The join and the metrics scripts compose: when the sites layer
    has a site-code column, the occurrences the metrics scripts keep are
    exactly the joined rows the join script reported as matched, one for
    one and in the same order. *)
Theorem in_site_rows_are_matched_rows (site_columns : list string)
    (gdf_joined : list Join.joined) :
  SITE_CODE_COL ∈ site_columns →
  rows (df_in_site (read_joined site_columns gdf_joined))
  = rows (read_joined site_columns
            (List.filter (λ o, bool_decide (is_Some (Join.site_attrs o !! SITE_CODE_COL)))
               gdf_joined))
  ∧ length (rows (df_in_site (read_joined site_columns gdf_joined)))
    = Join.n_matched gdf_joined.
Proof.
  intros Hcol.
  assert (Hrows : rows (df_in_site (read_joined site_columns gdf_joined))
            = rows (read_joined site_columns
                (List.filter (λ o, bool_decide (is_Some (Join.site_attrs o !! SITE_CODE_COL)))
                   gdf_joined))).
  { unfold df_in_site, has_col.
    rewrite bool_decide_eq_true_2 by (simpl; set_solver).
    simpl. by rewrite filter_map_comm. }
  split; [done|]. rewrite Hrows. simpl. by rewrite length_map.
Qed.

Lemma in_site_rows_are_matched_rows_witness :
  length (rows (df_in_site (read_joined (Join.columns Join.sample_layer)
            (Join.gdf_joined Join.within_rect Join.sample_points Join.sample_layer))))
  = Join.n_matched
      (Join.gdf_joined Join.within_rect Join.sample_points Join.sample_layer).
Proof.
  apply in_site_rows_are_matched_rows. vm_compute. left.
Defined.

End MetricsAcrossScripts.
